(** * lws: a shallow embedding of [index.js] (class [Lws])

    The file follows the source top-down: JavaScript values and
    truthiness, the [options] object, the event-emitter store behind
    [propagate], the server factories of [createServer], the handlers
    installed by [createServerEventStream], and [listen] itself.
    Code that throws is modelled in a state-and-exception monad over
    the heap of the process ([World]); what the event loop delivers
    afterwards is a deterministic [step] function over transport
    events. *)

From Stdlib Require Import ZArith String List Bool Lia DecimalString.
From stdpp Require Import base option list gmap strings.

(** ** JavaScript values *)

Module Js.

(** The primitive values that occur in option fields and payloads.
    Numbers are the integers a double represents exactly (counters
    and ports stay far below 2^53). *)
Inductive value : Type :=
| VUndefined
| VNull
| VBool (b : bool)
| VNum (n : Z)
| VStr (s : string)
| VError (message : string).

#[global] Instance value_eq_dec : EqDecision value.
Proof. solve_decision. Defined.

(** ToBoolean: what [if (x)], [!x], [&&] and [||] test. *)
Definition truthy (v : value) : bool :=
  match v with
  | VUndefined | VNull => false
  | VBool b => b
  | VNum n => negb (Z.eqb n 0)
  | VStr s => negb (String.eqb s "")
  | VError _ => true
  end.

(** typical's [t.isDefined]: [typeof input !== 'undefined']. *)
Definition isDefined (v : value) : bool :=
  match v with VUndefined => false | _ => true end.

(** ToString, as a template literal [`${x}`] applies it. *)
Definition toString (v : value) : string :=
  match v with
  | VUndefined => "undefined"
  | VNull => "null"
  | VBool true => "true"
  | VBool false => "false"
  | VNum n => NilZero.string_of_int (Z.to_int n)
  | VStr s => s
  | VError m => "Error: " +:+ m
  end.

(** A plain object, keyed by property name. Reading a missing
    property yields [undefined]. *)
Definition get (o : gmap string value) (k : string) : value :=
  default VUndefined (o !! k).

End Js.
Import Js.

(** ** Event emitters and the verbose stream *)

Module Emitter.

(** The objects of the process that carry a ['verbose'] stream. Each
    kind has its own address space. *)
Inductive ref : Type :=
| LwsRef (n : nat)        (* an instance of the class [Lws] *)
| FactoryRef (n : nat)    (* [new ServerFactory()] *)
| ServerRef (n : nat)     (* what [factory.create(options)] returned *)
| StackRef (n : nat).     (* a middleware stack *)

#[global] Instance ref_eq_dec : EqDecision ref.
Proof. solve_decision. Defined.

#[global] Instance ref_countable : Countable ref.
Proof.
  refine (inj_countable'
    (λ r, match r with
          | LwsRef n => (0%nat, n) | FactoryRef n => (1%nat, n)
          | ServerRef n => (2%nat, n) | StackRef n => (3%nat, n)
          end)
    (λ p, match p with
          | (0%nat, n) => LwsRef n | (1%nat, n) => FactoryRef n
          | (2%nat, n) => ServerRef n | (_, n) => StackRef n
          end) _).
  by intros [].
Defined.

(** The second and third argument of [emit('verbose', key, value)]. *)
Inductive payload : Type :=
| PUndefined
| PValue (v : value)
| PObject (fields : gmap string value)
| PArray (items : list value).

(** One call of [emitter.emit('verbose', key, value)]. *)
Record Emission : Type := mkEmission
  { source : ref; key : string; value : payload }.

(** The only listener this file registers on a ['verbose'] stream:
    [(key, value) => this.emit('verbose', key, value)]. *)
Inductive listener : Type :=
| Forward (this : ref).

Definition listenersOf (st : gmap ref (list listener)) (e : ref) : list listener :=
  default [] (st !! e).

(** [from.on('verbose', l)]: listeners are kept in registration order. *)
Definition on (from : ref) (l : listener) (st : gmap ref (list listener))
  : gmap ref (list listener) :=
  <[from := listenersOf st from ++ [l]]> st.

(** [propagate (from) { from.on('verbose', (key, value) => this.emit('verbose', key, value)) }] *)
Definition propagate (this from : ref) (st : gmap ref (list listener))
  : gmap ref (list listener) :=
  on from (Forward this) st.

(** [e.emit('verbose', key, value)]: the emission itself, then what
    each listener does, synchronously and in registration order. The
    result lists every emission in the order it happens. Forwarding
    in a cycle never returns in JavaScript; here it runs out of
    [fuel] and gives [None]. *)
Fixpoint emit (fuel : nat) (st : gmap ref (list listener))
    (e : ref) (k : string) (v : payload) : option (list Emission) :=
  match fuel with
  | O => None
  | S fuel' =>
      rest ← foldr
        (λ l acc,
           match l with
           | Forward this =>
               here ← emit fuel' st this k v;
               later ← acc;
               Some (here ++ later)
           end)
        (Some []) (listenersOf st e);
      Some (mkEmission e k v :: rest)
  end.

(** Events emitted one after the other on the same emitter. *)
Fixpoint emitAll (fuel : nat) (st : gmap ref (list listener))
    (e : ref) (evs : list (string * payload)) : option (list Emission) :=
  match evs with
  | [] => Some []
  | (k, v) :: evs' =>
      here ← emit fuel st e k v;
      later ← emitAll fuel st e evs';
      Some (here ++ later)
  end.

(** What a listener subscribed to [e] is called with, in order. *)
Definition observedAt (e : ref) (log : list Emission) : list (string * payload) :=
  map (λ x, (key x, value x)) (filter (λ x, source x = e) log).

(** A chain [c0; c1; ...; cm] of emitters, each propagated into the
    next: [c1.propagate(c0)], [c2.propagate(c1)], ... *)
Fixpoint chain (c : list ref) : gmap ref (list listener) :=
  match c with
  | from :: (this :: _) as rest => propagate this from (chain rest)
  | _ => ∅
  end.

End Emitter.
Import Emitter.

(** ** Options, factories and middleware *)

(** One entry of [options.stack]: a middleware class, or the name of
    a module that exports one. *)
Inductive MiddlewareSpec : Type :=
| SpecClass (cls : string)
| SpecModule (name : string).

(** Modelled from the spec: the class of [lib/middleware-stack], which
    [index.js] only requires. A stack is an ordered sequence of
    resolved middleware, hence an array, and it is an emitter, which
    [propagate] subscribes to. *)
Record MiddlewareStack : Type := mkStack
  { stackId : nat; items : list string }.

(** What the caller may put in [options.stack]. *)
Inductive StackOption : Type :=
| StackUndefined
| StackOne (spec : MiddlewareSpec)
| StackArray (specs : list MiddlewareSpec)
| StackInstance (s : MiddlewareStack).

Record Options : Type := mkOptions
  { port : Js.value;
    hostname : Js.value;
    maxConnections : Js.value;
    keepAliveTimeout : Js.value;
    configFile : Js.value;
    https : Js.value;
    http2 : Js.value;
    key : Js.value;
    cert : Js.value;
    pfx : Js.value;
    stack : StackOption;
    server : Js.value;
    modulePrefix : Js.value;
    moduleDir : list string }.

Definition setStack (s : StackOption) (o : Options) : Options :=
  mkOptions (port o) (hostname o) (maxConnections o) (keepAliveTimeout o)
    (configFile o) (https o) (http2 o) (key o) (cert o) (pfx o)
    s (server o) (modulePrefix o) (moduleDir o).

(** The first source handed to [util.deepMerge] in [listen]:
    [{ port: 8000, modulePrefix: 'lws-' }]. *)
Definition defaults : Options :=
  mkOptions (VNum 8000) VUndefined VUndefined VUndefined VUndefined
    VUndefined VUndefined VUndefined VUndefined VUndefined
    StackUndefined VUndefined (VStr "lws-") [].

(** What [load-module] found: a function, or something else. *)
Inductive LoadedModule : Type :=
| ModuleFunction (name : string)
| ModuleOther (exports : Js.value).

(** typical's [t.isFunction]. *)
Definition isFunction (m : LoadedModule) : bool :=
  match m with ModuleFunction _ => true | ModuleOther _ => false end.

(** The server factory classes. [lib/server-factory] is the base; the
    others are functions from a base class to a class that extends it. *)
Inductive ServerFactory : Type :=
| Base
| Https (base : ServerFactory)        (* lib/server-factory-https *)
| Http2 (base : ServerFactory)        (* lib/server-factory-http2 *)
| Custom (module : LoadedModule) (base : ServerFactory).   (* options.server *)

(** The outcome of a call that may throw. *)
Inductive result (A : Type) : Type :=
| Ok (a : A)
| Throw (err : Js.value).
Arguments Ok {A} a.
Arguments Throw {A} err.

(** The code of the repository and of its dependencies that is not in
    [index.js]. The development is parametric in it. *)
Class Collaborators : Type :=
  { (* byte-size: [byteSize(n).toString()] *)
    byteSize : Js.value → string;
    (* lib/util: [util.builtinModules] *)
    builtinModules : list Js.value;
    (* lib/util: [util.getStoredConfig(configFile)] *)
    getStoredConfig : Js.value → result Options;
    (* lib/util: [util.deepMerge({}, a, b, c)] *)
    deepMerge : Options → Options → Options → Options;
    (* load-module: [loadModule(name, { prefix, paths })] *)
    loadModule : Js.value → Js.value → list string → result LoadedModule;
    (* lib/server-factory*: [factory.create(options)]; the boolean tells
       whether the new server has an [addContext] method *)
    create : ServerFactory → Options → result bool;
    (* lib/middleware-stack: [Stack.from(stack, options)] *)
    stackFrom : list MiddlewareSpec → Options → result (list string);
    (* lib/middleware-stack: [stack.getMiddlewareFunctions(options)] *)
    getMiddlewareFunctions : MiddlewareStack → Options → result (list string) }.

(** array-back: [arrayify(options.stack)]. [undefined] becomes the
    empty array, an array is returned as it is, anything else is
    wrapped. A middleware stack is an array. *)
Definition arrayify (s : StackOption) : StackOption :=
  match s with
  | StackUndefined => StackArray []
  | StackOne spec => StackArray [spec]
  | StackArray specs => StackArray specs
  | StackInstance st => StackInstance st
  end.

(** The elements of [options.stack] once it is an array. *)
Definition elements (s : StackOption) : list MiddlewareSpec :=
  match arrayify s with
  | StackArray specs => specs
  | _ => []
  end.

(** ** Sockets, servers and the heap of the process *)

Inductive SocketEvent : Type :=
| connect | data | drain | timeout | close | error | end_ | lookup.

#[global] Instance SocketEvent_eq_dec : EqDecision SocketEvent.
Proof. solve_decision. Defined.

(** The three shapes of listener [createServerEventStream] puts on a
    socket. *)
Inductive SocketListener : Type :=
| Write (name : string) (value : payload)
    (* [write(name, value)]: the value was computed when the listener was made *)
| WriteProperties (name : string)
    (* [function () { write(name, socketProperties(this))() }] *)
| WriteError.
    (* [function (err) { write('server.socket.error', { err })() }] *)

Module Socket.
Record t : Type := mk
  { id : Js.value;
    bytesRead : Z;
    bytesWritten : Z;
    listeners : list (SocketEvent * SocketListener) }.
End Socket.

(** The variables one call of [createServerEventStream] closes over. *)
Record Stream : Type := mkStream
  { cId : Z; requestId : Z; options : Options }.

Record Server : Type := mkServer
  { factory : ServerFactory;
    addContext : bool;                       (* [server.addContext] is defined *)
    srvMaxConnections : Js.value;
    srvKeepAliveTimeout : Js.value;
    streams : list Stream;                   (* one per [createServerEventStream] *)
    sockets : list Socket.t;                 (* in order of arrival *)
    requests : list Js.value;                (* [req.requestId], in order of arrival *)
    apps : list (Emitter.ref * list string); (* [server.on('request', app.callback())] *)
    listenArgs : option (Js.value * Js.value) }. (* [server.listen(port, hostname)] *)

(** [setInterval(callback, delay)]; the one callback in this file emits
    the memory usage on [owner]. *)
Record Timer : Type := mkTimer
  { owner : Emitter.ref; delay : Z; repeat : bool; hasRef : bool }.

(** Calls into the collaborators, as they happen. *)
Inductive Call : Type :=
| CallLoadModule (name : Js.value)
| CallNewFactory (f : ServerFactory)
| CallCreate (f : ServerFactory)
| CallStackFrom (specs : list MiddlewareSpec)
| CallGetMiddlewareFunctions (s : MiddlewareStack)
| CallListen (srv : nat) (port hostname : Js.value)
| CallSetInterval (delay : Z)
| CallUnref.

Record World : Type := mkWorld
  { nextRef : nat;
    verbose : gmap Emitter.ref (list listener);
    servers : gmap nat Server;
    timers : list Timer;
    calls : list Call;         (* oldest first *)
    log : list Emission }.     (* what this file's code emitted, oldest first *)

Definition initialWorld : World := mkWorld 0 ∅ ∅ [] [] [].

(** Field updates. *)
Definition withVerbose (f : gmap Emitter.ref (list listener) → gmap Emitter.ref (list listener))
    (w : World) : World :=
  mkWorld (nextRef w) (f (verbose w)) (servers w) (timers w) (calls w) (log w).

Definition withServers (f : gmap nat Server → gmap nat Server) (w : World) : World :=
  mkWorld (nextRef w) (verbose w) (f (servers w)) (timers w) (calls w) (log w).

Definition withTimers (f : list Timer → list Timer) (w : World) : World :=
  mkWorld (nextRef w) (verbose w) (servers w) (f (timers w)) (calls w) (log w).

Definition called (c : Call) (w : World) : World :=
  mkWorld (nextRef w) (verbose w) (servers w) (timers w) (calls w ++ [c]) (log w).

Definition emitted (es : list Emission) (w : World) : World :=
  mkWorld (nextRef w) (verbose w) (servers w) (timers w) (calls w) (log w ++ es).

Definition withStreams (f : list Stream → list Stream) (s : Server) : Server :=
  mkServer (factory s) (addContext s) (srvMaxConnections s) (srvKeepAliveTimeout s)
    (f (streams s)) (sockets s) (requests s) (apps s) (listenArgs s).

Definition withMaxConnections (v : Js.value) (s : Server) : Server :=
  mkServer (factory s) (addContext s) v (srvKeepAliveTimeout s)
    (streams s) (sockets s) (requests s) (apps s) (listenArgs s).

Definition withKeepAliveTimeout (v : Js.value) (s : Server) : Server :=
  mkServer (factory s) (addContext s) (srvMaxConnections s) v
    (streams s) (sockets s) (requests s) (apps s) (listenArgs s).

Definition withApp (a : Emitter.ref * list string) (s : Server) : Server :=
  mkServer (factory s) (addContext s) (srvMaxConnections s) (srvKeepAliveTimeout s)
    (streams s) (sockets s) (requests s) (apps s ++ [a]) (listenArgs s).

Definition withListen (port hostname : Js.value) (s : Server) : Server :=
  mkServer (factory s) (addContext s) (srvMaxConnections s) (srvKeepAliveTimeout s)
    (streams s) (sockets s) (requests s) (apps s) (Some (port, hostname)).

(** ** Code that throws: a state and exception monad over [World]

    A thrown error leaves the heap as it was at the [throw]. *)

Definition M (A : Type) : Type := World → result A * World.

#[global] Instance M_ret : MRet M := λ A a w, (Ok a, w).

#[global] Instance M_bind : MBind M := λ A B f m w,
  match m w with
  | (Ok a, w') => f a w'
  | (Throw e, w') => (Throw e, w')
  end.

(** [throw new Error(message)] *)
Definition throw {A : Type} (message : string) : M A :=
  λ w, (Throw (VError message), w).

(** The outcome of a collaborator, after noting the call. *)
Definition call {A : Type} (c : Call) (r : result A) : M A :=
  λ w, (r, called c w).

Definition modify (f : World → World) : M () :=
  λ w, (Ok (), f w).

(** A new object: its address is the next free one. *)
Definition alloc : M nat :=
  λ w, (Ok (nextRef w),
        mkWorld (S (nextRef w)) (verbose w) (servers w) (timers w) (calls w) (log w)).

(** ** What the transport and the event loop deliver *)

(** Events on one server. Socket and request objects are made by the
    transport, one per connection and per request; a socket is named by
    its position in [sockets]. *)
Inductive ServerEvent : Type :=
| Connection (bytesRead bytesWritten : Z)   (* ['connection'], with the counters of the new socket *)
| Transfer (socket : nat) (read written : Z) (* bytes moved on a socket: its counters grow *)
| SocketEmit (socket : nat) (ev : SocketEvent) (err : Js.value)
| Request                                    (* ['request'] *)
| Closed                                     (* ['close'] *)
| Listening (ifaces : list Js.value).        (* ['listening']; [util.getIPList()] read then *)

Inductive Event : Type :=
| OnServer (server : nat) (ev : ServerEvent)
| OnTimer (timer : nat) (memUsage : gmap string Js.value)  (* [process.memoryUsage()] read then *)
| OnAppError (server app : nat) (err : Js.value).          (* the Koa app's ['error'] *)

(** The life of a process: calls of [listen] from outside, and events. *)
Inductive Action : Type :=
| Listen (this : nat) (options : Options)
| Deliver (ev : Event).

(** ** The class [Lws] *)

Section Lws.
Context {env : Collaborators}.

(** [propagate (from)] *)
Definition propagate (this from : Emitter.ref) : M () :=
  modify (withVerbose (Emitter.propagate this from)).

(** The value of the variable [ServerFactory] of [createServer] after
    the chain of [if]s that follows the validation. *)
Definition chooseFactory (options : Options) : M ServerFactory :=
  (* use HTTPS server factory *)
  if truthy (https options)
     || (negb (truthy (http2 options))
         && ((truthy (key options) && truthy (cert options))
             || truthy (pfx options)))
  then mret (Https Base)
  (* use HTTP2 server factory *)
  else if truthy (http2 options)
  then mret (Http2 Base)
  (* use user-supplied server factory *)
  else if truthy (server options)
  then
    if bool_decide (server options ∈ builtinModules)
    then throw "please supply a third party module name to --server, not a node built-in module name"
    else
      module ← call (CallLoadModule (server options))
                 (loadModule (server options) (modulePrefix options) (moduleDir options));
      if isFunction module
      then mret (Custom module Base)
      else throw "Invalid module supplied to --server, it should export a function."
  else mret Base.

(** [createServer (options)] *)
Definition createServer (this : Emitter.ref) (options : Options) : M nat :=
  (* validation *)
  if (truthy (key options) && negb (truthy (cert options)))
     || (negb (truthy (key options)) && truthy (cert options))
  then throw "--key and --cert must always be supplied together."
  else if truthy (https options) && truthy (pfx options)
  then throw "please use one of --https or --pfx, not both."
  else
    Factory ← chooseFactory options;
    factory ← alloc;
    call (CallNewFactory Factory) (Ok ());;
    propagate this (FactoryRef factory);;
    hasAddContext ← call (CallCreate Factory) (create Factory options);
    server ← alloc;
    modify (withServers
      (insert server (mkServer Factory hasAddContext VUndefined VUndefined [] [] [] [] None)));;
    mret server.

(** [socketProperties (socket)] *)
Definition socketProperties (socket : Socket.t) : payload :=
  PObject {[ "socketId" := Socket.id socket;
             "bytesRead" := VStr (byteSize (VNum (Socket.bytesRead socket)));
             "bytesWritten" := VStr (byteSize (VNum (Socket.bytesWritten socket))) ]}.

(** The [socket.on(...)] calls of the ['connection'] listener. The
    listeners for [connect], [end] and [lookup] are
    [write(name, socketProperties(socket, cId))]: the properties are
    read here, while the listener is made. *)
Definition onSocket (socket : Socket.t) : list (SocketEvent * SocketListener) :=
  [ (connect, Write "server.socket.connect" (socketProperties socket));
    (data, WriteProperties "server.socket.data");
    (drain, WriteProperties "server.socket.drain");
    (timeout, WriteProperties "server.socket.timeout");
    (close, WriteProperties "server.socket.close");
    (error, WriteError);
    (end_, Write "server.socket.end" (socketProperties socket));
    (lookup, Write "server.socket.connect" (socketProperties socket)) ].

(** The listener of ['connection']: [socket.id = cId++], the
    [server.socket.new] event, and the listeners on the socket. *)
Definition onConnection (st : Stream) (socket : Socket.t)
  : Stream * Socket.t * list (string * payload) :=
  let socket := Socket.mk (VNum (cId st)) (Socket.bytesRead socket)
                  (Socket.bytesWritten socket) (Socket.listeners socket) in
  let st := mkStream (cId st + 1) (requestId st) (options st) in
  let new := ("server.socket.new", socketProperties socket) in
  (st,
   Socket.mk (Socket.id socket) (Socket.bytesRead socket) (Socket.bytesWritten socket)
     (Socket.listeners socket ++ onSocket socket),
   [new]).

(** What one socket listener writes when its event fires on [socket]. *)
Definition runListener (socket : Socket.t) (err : Js.value) (l : SocketListener)
  : string * payload :=
  match l with
  | Write name value => (name, value)
  | WriteProperties name => (name, socketProperties socket)
  | WriteError => ("server.socket.error", PObject {[ "err" := err ]})
  end.

(** [socket.emit(ev, err)]: the listeners of [ev], in registration order. *)
Definition socketEmit (socket : Socket.t) (ev : SocketEvent) (err : Js.value)
  : list (string * payload) :=
  map (λ p, runListener socket err p.2)
      (filter (λ p, p.1 = ev) (Socket.listeners socket)).

(** The listener of ['request']: [req.requestId = requestId++]. *)
Definition onRequest (st : Stream) : Stream * Js.value :=
  (mkStream (cId st) (requestId st + 1) (options st), VNum (requestId st)).

(** The listener of ['listening']. *)
Definition onListening (isSecure : bool) (options : Options) (ifaces : list Js.value)
  : string * payload :=
  let scheme := if isSecure then "https" else "http" in
  let ipList :=
    if truthy (hostname options)
    then [ VStr (scheme +:+ "://" +:+ toString (hostname options)
                   +:+ ":" +:+ toString (port options)) ]
    else map (λ address,
                VStr (scheme +:+ "://" +:+ toString address
                        +:+ ":" +:+ toString (port options)))
             ifaces in
  ("server.listening", PArray ipList).

(** The callback of the interval in [listen]. *)
Definition memoryUsage (memUsage : gmap string Js.value) : gmap string Js.value :=
  let memUsage := <["rss" := VStr (byteSize (get memUsage "rss"))]> memUsage in
  let memUsage := <["heapTotal" := VStr (byteSize (get memUsage "heapTotal"))]> memUsage in
  let memUsage := <["heapUsed" := VStr (byteSize (get memUsage "heapUsed"))]> memUsage in
  <["external" := VStr (byteSize (get memUsage "external"))]> memUsage.

(** [createServerEventStream (server, options)]: a new pair of
    counters, both 1, and the listeners above on [server]. The
    listeners read [options.hostname] and [options.port] only, which
    [listen] does not assign afterwards. *)
Definition createServerEventStream (server : nat) (options : Options) : M () :=
  modify (withServers (alter (withStreams (λ l, l ++ [mkStream 1 1 options])) server)).

(** The value of [options.stack] in [listen] once it is validated:
    [arrayify], then [Stack.from] unless it is a stack already. *)
Definition assembleStack (options : Options) : M MiddlewareStack :=
  let options := setStack (arrayify (stack options)) options in
  (* validate stack *)
  match stack options with
  | StackInstance s => mret s
  | other =>
      items ← call (CallStackFrom (elements other)) (stackFrom (elements other) options);
      s ← alloc;
      mret (mkStack s items)
  end.

(** [listen (options)] *)
Definition listen (this : Emitter.ref) (options : Options) : M nat :=
  (* merge options *)
  optionsFromConfigFile ← (λ w, (getStoredConfig (configFile options), w));
  let options := deepMerge defaults optionsFromConfigFile options in
  (* create a HTTP, HTTPS or HTTP2 server *)
  server ← createServer this options;
  (if isDefined (maxConnections options)
   then modify (withServers (alter (withMaxConnections (maxConnections options)) server))
   else mret ());;
  (if isDefined (keepAliveTimeout options)
   then modify (withServers (alter (withKeepAliveTimeout (keepAliveTimeout options)) server))
   else mret ());;
  (* stream server events to a verbose event *)
  createServerEventStream server options;;
  (* stream server verbose events to lws *)
  propagate this (ServerRef server);;
  stack ← assembleStack options;
  let options := setStack (StackInstance stack) options in
  (* propagate stack middleware events *)
  propagate this (StackRef (stackId stack));;
  (* build Koa application using the supplied middleware, add it to server *)
  middlewares ← call (CallGetMiddlewareFunctions stack)
                  (getMiddlewareFunctions stack options);
  modify (withServers (alter (withApp (this, middlewares)) server));;
  (* start server; the transport reports what goes wrong later, on the server *)
  call (CallListen server (port options) (hostname options)) (Ok ());;
  modify (withServers (alter (withListen (port options) (hostname options)) server));;
  (* emit memory usage stats *)
  call (CallSetInterval 60000) (Ok ());;
  modify (withTimers (λ l, l ++ [mkTimer this 60000 true true]));;
  call CallUnref (Ok ());;
  modify (withTimers (λ l, removelast l ++ [mkTimer this 60000 true false]));;
  mret server.

(** One event on one server: the listeners that
    [createServerEventStream] installed run, stream after stream, and
    the list of [write(name, value)] calls they make is returned. The
    transport emits ['listening'] only on a server whose [listen] was
    called. *)
Definition serverStep (ev : ServerEvent) (srv : Server)
  : Server * list (string * payload) :=
  match ev with
  | Connection r w =>
      let '(sts, socket, writes) :=
        foldl (λ '(done, socket, writes) st,
                 let '(st', socket', new) := onConnection st socket in
                 (done ++ [st'], socket', writes ++ new))
              ([], Socket.mk VUndefined r w [], []) (streams srv) in
      (mkServer (factory srv) (addContext srv) (srvMaxConnections srv)
         (srvKeepAliveTimeout srv) sts (sockets srv ++ [socket]) (requests srv)
         (apps srv) (listenArgs srv),
       writes)
  | Transfer i r w =>
      (mkServer (factory srv) (addContext srv) (srvMaxConnections srv)
         (srvKeepAliveTimeout srv) (streams srv)
         (alter (λ s, Socket.mk (Socket.id s) (Socket.bytesRead s + r)
                        (Socket.bytesWritten s + w) (Socket.listeners s))
                i (sockets srv))
         (requests srv) (apps srv) (listenArgs srv),
       [])
  | SocketEmit i ev err =>
      match sockets srv !! i with
      | Some socket => (srv, socketEmit socket ev err)
      | None => (srv, [])
      end
  | Request =>
      let '(sts, req) :=
        foldl (λ '(done, req) st,
                 let '(st', id) := onRequest st in (done ++ [st'], id))
              ([], VUndefined) (streams srv) in
      (mkServer (factory srv) (addContext srv) (srvMaxConnections srv)
         (srvKeepAliveTimeout srv) sts (sockets srv) (requests srv ++ [req])
         (apps srv) (listenArgs srv),
       [])
  | Closed =>
      (srv, map (λ _, ("server.close", PUndefined)) (streams srv))
  | Listening ifaces =>
      match listenArgs srv with
      | Some _ =>
          (srv, map (λ st, onListening (addContext srv) (options st) ifaces) (streams srv))
      | None => (srv, [])
      end
  end.

(** One turn of the event loop. Every [write] is
    [server.emit('verbose', name, value)]. *)
Definition step (ev : Event) (w : World) : World :=
  match ev with
  | OnServer n e =>
      match servers w !! n with
      | Some srv =>
          let '(srv', writes) := serverStep e srv in
          emitted (map (λ p, mkEmission (ServerRef n) p.1 p.2) writes)
                  (withServers (insert n srv') w)
      | None => w
      end
  | OnTimer i memUsage =>
      match timers w !! i with
      | Some t =>
          emitted [mkEmission (owner t) "process.memoryUsage" (PObject (memoryUsage memUsage))]
                  (if repeat t then w else withTimers (delete i) w)
      | None => w
      end
  | OnAppError n i err =>
      match servers w !! n ≫= (λ srv, apps srv !! i) with
      | Some (this, _) => emitted [mkEmission this "koa.error" (PValue err)] w
      | None => w
      end
  end.

Definition act (a : Action) (w : World) : World :=
  match a with
  | Listen this options => (listen (LwsRef this) options w).2
  | Deliver ev => step ev w
  end.

Fixpoint run (l : list Action) (w : World) : World :=
  match l with
  | [] => w
  | a :: l' => run l' (act a w)
  end.

End Lws.

(** ** Collaborators for the examples

    Stand-ins, small enough to run. Every theorem below holds for all
    collaborators; these only serve where a concrete run is shown. *)

Module Sample.

(** Bytes below 1000 as ["n B"], then kilobytes with one decimal. *)
Definition render (v : Js.value) : string :=
  match v with
  | VNum n =>
      if (n <? 1000)%Z then toString (VNum n) +:+ " B"
      else toString (VNum (n / 1000)) +:+ "." +:+ toString (VNum (n mod 1000 / 100)) +:+ " kB"
  | _ => "NaN"
  end.

(** Per field, the last source that defines it. *)
Definition pick (a b c : Js.value) : Js.value :=
  if isDefined c then c else if isDefined b then b else a.

Definition merge (a b c : Options) : Options :=
  mkOptions (pick (port a) (port b) (port c))
    (pick (hostname a) (hostname b) (hostname c))
    (pick (maxConnections a) (maxConnections b) (maxConnections c))
    (pick (keepAliveTimeout a) (keepAliveTimeout b) (keepAliveTimeout c))
    (pick (configFile a) (configFile b) (configFile c))
    (pick (https a) (https b) (https c))
    (pick (http2 a) (http2 b) (http2 c))
    (pick (key a) (key b) (key c))
    (pick (cert a) (cert b) (cert c))
    (pick (pfx a) (pfx b) (pfx c))
    (match stack c, stack b with
     | StackUndefined, StackUndefined => stack a
     | StackUndefined, s => s
     | s, _ => s
     end)
    (pick (server a) (server b) (server c))
    (pick (modulePrefix a) (modulePrefix b) (modulePrefix c))
    (match moduleDir c, moduleDir b with
     | [], [] => moduleDir a
     | [], l => l
     | l, _ => l
     end).

(** No option is set. *)
Definition none : Options :=
  mkOptions VUndefined VUndefined VUndefined VUndefined VUndefined
    VUndefined VUndefined VUndefined VUndefined VUndefined
    StackUndefined VUndefined VUndefined [].

Definition load (name prefix : Js.value) (paths : list string) : result LoadedModule :=
  match name with
  | VStr "lws-http3" => Ok (ModuleFunction "lws-http3")
  | VStr "lodash" => Ok (ModuleOther (VStr "lodash"))
  | _ => Throw (VError "module not found")
  end.

Definition make (f : ServerFactory) (o : Options) : result bool :=
  Ok match f with
     | Https _ | Http2 _ => true
     | Base | Custom _ _ => false
     end.

(** Resolves every spec to its name, except the module ["missing"]. *)
Fixpoint resolve (specs : list MiddlewareSpec) (o : Options) : result (list string) :=
  match specs with
  | [] => Ok []
  | SpecClass c :: rest =>
      match resolve rest o with Ok l => Ok (c :: l) | Throw e => Throw e end
  | SpecModule n :: rest =>
      if String.eqb n "missing" then Throw (VError "module not found: missing")
      else match resolve rest o with Ok l => Ok (n :: l) | Throw e => Throw e end
  end.

#[export] Instance collaborators : Collaborators :=
  {| byteSize := render;
     builtinModules := [VStr "http"; VStr "https"; VStr "fs"; VStr "net"];
     getStoredConfig := λ _, Ok none;
     deepMerge := merge;
     loadModule := load;
     create := make;
     stackFrom := resolve;
     getMiddlewareFunctions := λ s _, Ok (items s) |}.

(** Options with one field set. *)
Definition withHttps (v : Js.value) (o : Options) : Options :=
  mkOptions (port o) (hostname o) (maxConnections o) (keepAliveTimeout o)
    (configFile o) v (http2 o) (key o) (cert o) (pfx o)
    (stack o) (server o) (modulePrefix o) (moduleDir o).

Definition withHttp2 (v : Js.value) (o : Options) : Options :=
  mkOptions (port o) (hostname o) (maxConnections o) (keepAliveTimeout o)
    (configFile o) (https o) v (key o) (cert o) (pfx o)
    (stack o) (server o) (modulePrefix o) (moduleDir o).

Definition withKey (v : Js.value) (o : Options) : Options :=
  mkOptions (port o) (hostname o) (maxConnections o) (keepAliveTimeout o)
    (configFile o) (https o) (http2 o) v (cert o) (pfx o)
    (stack o) (server o) (modulePrefix o) (moduleDir o).

Definition withCert (v : Js.value) (o : Options) : Options :=
  mkOptions (port o) (hostname o) (maxConnections o) (keepAliveTimeout o)
    (configFile o) (https o) (http2 o) (key o) v (pfx o)
    (stack o) (server o) (modulePrefix o) (moduleDir o).

Definition withPfx (v : Js.value) (o : Options) : Options :=
  mkOptions (port o) (hostname o) (maxConnections o) (keepAliveTimeout o)
    (configFile o) (https o) (http2 o) (key o) (cert o) v
    (stack o) (server o) (modulePrefix o) (moduleDir o).

Definition withHost (p h : Js.value) (o : Options) : Options :=
  mkOptions p h (maxConnections o) (keepAliveTimeout o)
    (configFile o) (https o) (http2 o) (key o) (cert o) (pfx o)
    (stack o) (server o) (modulePrefix o) (moduleDir o).


(** The same collaborators, except that an HTTPS or HTTP2 server
    cannot be made: its key file is missing. *)
Definition brokenTls : Collaborators :=
  {| byteSize := render;
     builtinModules := [VStr "http"; VStr "https"; VStr "fs"; VStr "net"];
     getStoredConfig := λ _, Ok none;
     deepMerge := merge;
     loadModule := load;
     create := λ f _,
       match f with
       | Https _ | Http2 _ => Throw (VError "ENOENT: no such file or directory")
       | _ => Ok false
       end;
     stackFrom := resolve;
     getMiddlewareFunctions := λ s _, Ok (items s) |}.

End Sample.

(** ** Vocabulary of the statements *)

(** The two errors of the validation in [createServer]. *)
Definition ConfigConflict (e : Js.value) : Prop :=
  e = VError "--key and --cert must always be supplied together."
  ∨ e = VError "please use one of --https or --pfx, not both.".

(** The calls made between two states of the process. *)
Definition newCalls (w w' : World) : list Call :=
  drop (length (calls w)) (calls w').

(** The factory class [F] was chosen and instantiated between [w] and [w']. *)
Definition selects (F : ServerFactory) (w w' : World) : Prop :=
  CallNewFactory F ∈ newCalls w w'.

(** The condition of the first [if] after the validation. *)
Definition httpsWanted (o : Options) : Prop :=
  truthy (https o) = true
  ∨ (truthy (http2 o) = false
     ∧ ((truthy (key o) = true ∧ truthy (cert o) = true) ∨ truthy (pfx o) = true)).

(** The events emitted between two states of the process. *)
Definition newLog (w w' : World) : list Emission :=
  drop (length (log w)) (log w').

(** [server.listen] was called on server [n]. *)
Definition isListening (w : World) (n : nat) : Prop :=
  ∃ srv, servers w !! n = Some srv ∧ is_Some (listenArgs srv).

(** The ids of all the sockets of the process. *)
Definition allSocketIds (w : World) : list Js.value :=
  map_to_list (servers w) ≫= λ p, Socket.id <$> sockets p.2.

(** The verbose key written for each socket event. *)
Definition socketKey (ev : SocketEvent) : string :=
  match ev with
  | connect => "server.socket.connect"
  | data => "server.socket.data"
  | drain => "server.socket.drain"
  | timeout => "server.socket.timeout"
  | close => "server.socket.close"
  | error => "server.socket.error"
  | end_ => "server.socket.end"
  | lookup => "server.socket.connect"
  end.

(** An emission that one turn of the event loop may add: it does not
    have the key ["server.socket.lookup"], and has the key
    ["server.listening"] only on a server that is listening. *)
Definition allowed (w : World) (x : Emission) : Prop :=
  Emitter.key x ≠ "server.socket.lookup"
  ∧ (Emitter.key x = "server.listening" →
     ∃ n, source x = ServerRef n ∧ isListening w n).

(** The URL of one endpoint, [scheme://host:port]. *)
Definition endpoint (secure : bool) (host port : Js.value) : Js.value :=
  VStr ((if secure then "https" else "http")
          +:+ "://" +:+ toString host +:+ ":" +:+ toString port).

(** The timers that keep the event loop, and so the process, alive. *)
Definition holding (w : World) : list Timer :=
  filter (λ t, hasRef t = true) (timers w).

(** The calls [createServer] makes. *)
Definition factoryCall (c : Call) : Prop :=
  match c with
  | CallLoadModule _ | CallNewFactory _ | CallCreate _ => True
  | _ => False
  end.

Section Invariants.
Context {env : Collaborators}.

(** The listeners of [socket] are those one ['connection'] listener
    made, when the counters of the socket were [r0] and [w0]. *)
Definition installed (socket : Socket.t) : Prop :=
  ∃ r0 w0, Socket.listeners socket = onSocket (Socket.mk (Socket.id socket) r0 w0 []).

(** A server as [listen] and the events leave it: one stream; the
    socket that arrived [i]-th (from 0) has id [i + 1], and the request
    that arrived [i]-th has id [i + 1]; each counter is one past the
    ids it has given; [server.listen] was called, if at all, with the
    port and hostname of the stream's options. *)
Definition serverInv (srv : Server) : Prop :=
  ∃ st, streams srv = [st]
    ∧ cId st = (1 + Z.of_nat (length (sockets srv)))%Z
    ∧ requestId st = (1 + Z.of_nat (length (requests srv)))%Z
    ∧ (∀ i socket, sockets srv !! i = Some socket →
         Socket.id socket = VNum (1 + Z.of_nat i) ∧ installed socket)
    ∧ (∀ i req, requests srv !! i = Some req → req = VNum (1 + Z.of_nat i))
    ∧ (∀ p h, listenArgs srv = Some (p, h) →
         p = port (options st) ∧ h = hostname (options st)).

Definition worldInv (w : World) : Prop :=
  ∀ n srv, servers w !! n = Some srv → serverInv srv.

End Invariants.

(** ** Vocabulary of the further properties *)

#[global] Instance listener_eq_dec : EqDecision listener.
Proof. solve_decision. Defined.

(** Every server of the process has an address below the next free
    one. *)
Definition allocated (w : World) : Prop :=
  ∀ n, is_Some (servers w !! n) → n < nextRef w.

(** * Properties *)

(** ** Values *)

Example toString_port : toString (VNum 9000) = "9000".
Proof. reflexivity. Qed.

Example truthy_empty_string : truthy (VStr "") = false.
Proof. reflexivity. Qed.

(** ** Propagation *)

Example chain_three :
  emit 3 (chain [ServerRef 0; LwsRef 0; LwsRef 1]) (ServerRef 0) "k" (PValue (VNum 1))
  = Some [mkEmission (ServerRef 0) "k" (PValue (VNum 1));
          mkEmission (LwsRef 0) "k" (PValue (VNum 1));
          mkEmission (LwsRef 1) "k" (PValue (VNum 1))].
Proof. vm_compute. reflexivity. Qed.

Section Propagation.
Implicit Types (st : gmap Emitter.ref (list listener)) (c : list Emitter.ref).
Implicit Types (k : string) (v : payload) (log : list Emission).

Lemma listenersOf_propagate_eq st this from :
  listenersOf (Emitter.propagate this from st) from
  = listenersOf st from ++ [Forward this].
Proof.
  unfold Emitter.propagate, on, listenersOf at 1.
  by rewrite lookup_insert_eq.
Qed.

Lemma listenersOf_propagate_ne st this from e :
  e ≠ from →
  listenersOf (Emitter.propagate this from st) e = listenersOf st e.
Proof.
  intros Hne. unfold Emitter.propagate, on, listenersOf at 1.
  by rewrite lookup_insert_ne.
Qed.

(** Every emission that one [emit] causes carries the same key and
    the same payload. *)
Lemma emit_unchanged fuel st e k v log :
  emit fuel st e k v = Some log →
  Forall (λ x, Emitter.key x = k ∧ Emitter.value x = v) log.
Proof.
  revert e log. induction fuel as [|fuel IH]; intros e log; [done|].
  simpl. generalize (listenersOf st e). intros ls.
  destruct (foldr _ _ ls) as [rest|] eqn:Hrest; [|done].
  simpl. intros [= <-]. constructor; [done|].
  revert rest Hrest. induction ls as [|[this] ls IHls]; simpl; intros rest.
  - by intros [= <-].
  - destruct (emit fuel st this k v) as [here|] eqn:Hhere; [|done]. simpl.
    destruct (foldr _ _ ls) as [later|]; [|done]. simpl.
    intros [= <-]. apply Forall_app. split; [by eapply IH | by apply IHls].
Qed.

(** After [this.propagate(from)], an event emitted on [from] is
    emitted on [this]. *)
Lemma emit_propagate_reaches fuel st this from k v log :
  emit fuel (Emitter.propagate this from st) from k v = Some log →
  mkEmission this k v ∈ log.
Proof.
  destruct fuel as [|fuel]; [done|]. simpl.
  rewrite listenersOf_propagate_eq.
  generalize (listenersOf st from). intros ls.
  destruct (foldr _ _ (ls ++ _)) as [rest|] eqn:Hrest; [|done].
  simpl. intros [= <-]. apply elem_of_cons. right.
  revert rest Hrest. induction ls as [|[that] ls IHls]; simpl; intros rest.
  - destruct (emit fuel _ this k v) as [here|] eqn:Hhere; [|done]. simpl.
    intros [= <-]. rewrite app_nil_r.
    destruct fuel as [|fuel]; [done|]. simpl in Hhere.
    destruct (foldr _ _ _); [|done]. simpl in Hhere.
    injection Hhere as <-. apply elem_of_cons. by left.
  - destruct (emit fuel _ that k v) as [here|]; [|done]. simpl.
    destruct (foldr _ _ (ls ++ _)) as [later|]; [|done]. simpl.
    intros [= <-]. apply elem_of_app. right. by apply IHls.
Qed.

Lemma observedAt_app e log1 log2 :
  observedAt e (log1 ++ log2) = observedAt e log1 ++ observedAt e log2.
Proof. unfold observedAt. by rewrite filter_app, map_app. Qed.

Lemma observedAt_unchanged e k v log :
  Forall (λ x, Emitter.key x = k ∧ Emitter.value x = v) log →
  observedAt e log = replicate (length (observedAt e log)) (k, v).
Proof.
  induction 1 as [|x log [Hk Hv] _ IH]; [done|].
  unfold observedAt in *. rewrite filter_cons.
  destruct (decide (source x = e)); [|done].
  simpl. rewrite <- IH, Hk, Hv. done.
Qed.

Lemma observedAt_elem e k v log :
  mkEmission e k v ∈ log → (k, v) ∈ observedAt e log.
Proof.
  intros Hin. unfold observedAt. apply list_elem_of_fmap.
  exists (mkEmission e k v). split; [done|].
  by apply list_elem_of_filter.
Qed.

(** Events emitted in sequence on [from] arrive on [this] in that
    sequence, and nothing else arrives. *)
Lemma emitAll_propagate fuel st this from evs log :
  emitAll fuel (Emitter.propagate this from st) from evs = Some log →
  evs `sublist_of` observedAt this log ∧ ∀ x, x ∈ observedAt this log → x ∈ evs.
Proof.
  revert log. induction evs as [|[k v] evs IH]; simpl; intros log.
  - intros [= <-]. split; [done|]. by intros x Hx.
  - destruct (emit fuel _ from k v) as [here|] eqn:Hhere; [|done]. simpl.
    destruct (emitAll fuel _ from evs) as [later|]; [|done]. simpl.
    intros [= <-]. destruct (IH later eq_refl) as [Hsub Hin].
    rewrite observedAt_app.
    pose proof (emit_unchanged _ _ _ _ _ _ Hhere) as Hsame.
    pose proof (observedAt_elem _ _ _ _ (emit_propagate_reaches _ _ _ _ _ _ _ Hhere)) as Hone.
    rewrite (observedAt_unchanged this k v here Hsame) in Hone |- *.
    destruct (length (observedAt this here)) as [|n]; simpl in *.
    { by apply elem_of_nil in Hone. }
    split.
    + apply sublist_skip. by apply sublist_inserts_l.
    + intros x [->|Hx]%elem_of_cons; [by left|].
      apply elem_of_app in Hx as [Hx|Hx].
      * apply elem_of_replicate in Hx as [-> _]. by left.
      * right. by apply Hin.
Qed.

Lemma chain_lookup_None c e : e ∉ c → chain c !! e = None.
Proof.
  induction c as [|a [|b c] IH]; [done..|].
  intros Hnotin. change (chain (a :: b :: c)) with (Emitter.propagate b a (chain (b :: c))).
  apply not_elem_of_cons in Hnotin as [Hne Hnotin].
  unfold Emitter.propagate, on. rewrite lookup_insert_ne by done. by apply IH.
Qed.

Lemma listenersOf_chain_head a b c :
  a ∉ b :: c → listenersOf (chain (a :: b :: c)) a = [Forward b].
Proof.
  intros Hnotin. change (chain (a :: b :: c)) with (Emitter.propagate b a (chain (b :: c))).
  rewrite listenersOf_propagate_eq. unfold listenersOf.
  by rewrite chain_lookup_None.
Qed.

Lemma listenersOf_chain_tail a b c e :
  e ≠ a → listenersOf (chain (a :: b :: c)) e = listenersOf (chain (b :: c)) e.
Proof.
  intros Hne. change (chain (a :: b :: c)) with (Emitter.propagate b a (chain (b :: c))).
  by apply listenersOf_propagate_ne.
Qed.

(** On a chain, one event on the innermost emitter is emitted once
    on every emitter of the chain, from the inside out. The store may
    hold other emitters, as long as it agrees with the chain on the
    chain's own. *)
Lemma emit_chain c : ∀ st fuel src k v,
  NoDup c → head c = Some src → length c ≤ fuel →
  (∀ e, e ∈ c → listenersOf st e = listenersOf (chain c) e) →
  emit fuel st src k v = Some (map (λ e, mkEmission e k v) c).
Proof.
  induction c as [|a c IH]; intros st fuel src k v Hnd Hhd Hlen Hst; [done|].
  injection Hhd as <-. destruct fuel as [|fuel]; [simpl in Hlen; lia|].
  apply NoDup_cons in Hnd as [Hnotin Hnd]. simpl.
  rewrite (Hst a) by (by left).
  destruct c as [|b c].
  - by unfold listenersOf.
  - rewrite listenersOf_chain_head by done. simpl.
    rewrite (IH st fuel b k v); [simpl; by rewrite app_nil_r | done | done | simpl in *; lia |].
    intros e He. rewrite (Hst e) by (by right).
    apply listenersOf_chain_tail. by intros ->.
Qed.

Lemma observedAt_chain_notin c e k v :
  e ∉ c → observedAt e (map (λ e, mkEmission e k v) c) = [].
Proof.
  induction c as [|a c IH]; [done|].
  intros [Hne Hnotin]%not_elem_of_cons.
  unfold observedAt in *. simpl. rewrite filter_cons_False by (simpl; congruence).
  by apply IH.
Qed.

Lemma observedAt_chain c e k v :
  NoDup c → e ∈ c → observedAt e (map (λ e, mkEmission e k v) c) = [(k, v)].
Proof.
  intros Hnd. induction Hnd as [|a c Hnotin Hnd IH]; intros Hin.
  - by apply elem_of_nil in Hin.
  - destruct (decide (a = e)) as [->|Hne].
    + pose proof (observedAt_chain_notin c e k v Hnotin) as Hnone.
      unfold observedAt in *. simpl. rewrite filter_cons_True by done.
      simpl. by rewrite Hnone.
    + apply elem_of_cons in Hin as [->|Hin]; [done|].
      unfold observedAt in *. simpl. rewrite filter_cons_False by done.
      by apply IH.
Qed.

End Propagation.

(** C5. [propagate(source)] subscribes to the source's verbose events
    and re-emits each with the same key and payload on the aggregator,
    in the order the source emits them. In any store, once
    [this.propagate(from)] is done, the events emitted on [from] reach
    [this] unchanged and in order. Propagation composes: along a chain
    of aggregators, each propagated once into the next, a listener on
    any aggregator of the chain, the outermost included, observes every
    event of the innermost source exactly once, in emission order. *)
Theorem propagate_reemits_unchanged_and_composes :
  (∀ st this from fuel evs log,
     emitAll fuel (Emitter.propagate this from st) from evs = Some log →
     evs `sublist_of` observedAt this log ∧ ∀ x, x ∈ observedAt this log → x ∈ evs)
  ∧
  (∀ c src fuel evs,
     NoDup c → head c = Some src → length c ≤ fuel →
     ∃ log, emitAll fuel (chain c) src evs = Some log
            ∧ ∀ e, e ∈ c → observedAt e log = evs).
Proof.
  split; [intros st this from fuel evs log; apply emitAll_propagate|].
  intros c src fuel evs Hnd Hhd Hlen.
  induction evs as [|[k v] evs [later [Hlater Hobs]]]; simpl.
  - by exists [].
  - rewrite (emit_chain c (chain c) fuel src k v) by done. simpl.
    rewrite Hlater. simpl. eexists. split; [done|].
    intros e He. rewrite observedAt_app, (Hobs e He).
    by rewrite observedAt_chain.
Qed.

Lemma propagate_reemits_unchanged_and_composes_witness :
  let evs := [("server.close", PUndefined); ("koa.error", PValue (VError "boom"))] in
  (evs `sublist_of`
     observedAt (LwsRef 0)
       [mkEmission (ServerRef 0) "server.close" PUndefined;
        mkEmission (LwsRef 0) "server.close" PUndefined;
        mkEmission (ServerRef 0) "koa.error" (PValue (VError "boom"));
        mkEmission (LwsRef 0) "koa.error" (PValue (VError "boom"))])
  ∧ ∃ log,
      emitAll 3 (chain [ServerRef 0; LwsRef 0; LwsRef 1]) (ServerRef 0) evs = Some log
      ∧ ∀ e, e ∈ [ServerRef 0; LwsRef 0; LwsRef 1] → observedAt e log = evs.
Proof.
  intros evs. split.
  - apply (proj1 propagate_reemits_unchanged_and_composes
             ∅ (LwsRef 0) (ServerRef 0) 2%nat evs).
    vm_compute. reflexivity.
  - apply (proj2 propagate_reemits_unchanged_and_composes
             [ServerRef 0; LwsRef 0; LwsRef 1] (ServerRef 0) 3%nat evs).
    + compute_done.
    + reflexivity.
    + simpl. lia.
Defined.

(** After [listen], what the server emits reaches the [Lws] instance,
    once. *)
Example server_events_reach_lws :
  emit 2
    (verbose (listen (env := Sample.collaborators) (LwsRef 0) Sample.none initialWorld).2)
    (ServerRef 1) "server.close" PUndefined
  = Some [mkEmission (ServerRef 1) "server.close" PUndefined;
          mkEmission (LwsRef 0) "server.close" PUndefined].
Proof. vm_compute. reflexivity. Qed.

(** ** Factory selection *)

Ltac run_monad :=
  unfold mbind, mret, M_bind, M_ret, call, modify, alloc, throw; simpl.

Ltac returned :=
  let Hret := fresh "Hret" in
  intros Hret; inversion Hret; subst; clear Hret.

Section CreateServer.
Context {env : Collaborators}.

Lemma newCalls_app w w' cs : calls w' = calls w ++ cs → newCalls w w' = cs.
Proof. intros Heq. unfold newCalls. rewrite Heq. apply drop_app_length. Qed.

(** Choosing the factory makes no call but, at most, one to
    [load-module]; it picks the HTTPS factory exactly when the first
    condition holds. *)
Lemma chooseFactory_spec o w r w' :
  chooseFactory o w = (r, w') →
  (w' = w ∨ w' = called (CallLoadModule (server o)) w)
  ∧ (r = Ok (Https Base) ↔ httpsWanted o).
Proof.
  unfold chooseFactory, httpsWanted.
  destruct (truthy (https o)), (truthy (http2 o)), (truthy (key o)),
    (truthy (cert o)), (truthy (pfx o)); simpl;
    try (returned; split; [by left | intuition congruence]).
  all: destruct (truthy (server o)); simpl;
    try (returned; split; [by left | intuition congruence]).
  all: case_bool_decide; run_monad;
    try (returned; split; [by left | intuition congruence]).
  all: destruct (loadModule _ _ _) as [[name|other]|e]; simpl;
    returned; (split; [by right | intuition congruence]).
Qed.

Lemma createServer_valid this o w :
  truthy (key o) = truthy (cert o) →
  truthy (https o) && truthy (pfx o) = false →
  ∃ r1 w1, chooseFactory o w = (r1, w1) ∧
    match r1 with
    | Throw e => createServer this o w = (Throw e, w1)
    | Ok F => ∃ r w', createServer this o w = (r, w')
                ∧ calls w' = calls w1 ++ [CallNewFactory F; CallCreate F]
    end.
Proof.
  intros Hkc Hhp. unfold createServer. rewrite Hkc, Hhp.
  replace (truthy (cert o) && negb (truthy (cert o))
           || negb (truthy (cert o)) && truthy (cert o)) with false
    by (by destruct (truthy (cert o))).
  run_monad. destruct (chooseFactory o w) as [[F|e] w1] eqn:Hsel.
  - exists (Ok F), w1. split; [done|]. unfold propagate. run_monad.
    destruct (create F o) as [b|e]; simpl; eexists _, _; (split; [done|]); simpl;
      by rewrite <- app_assoc.
  - by exists (Throw e), w1.
Qed.

(** C1, as amended. For options that pass the validation of
    [createServer] ([key] and [cert] both set or both unset, and not
    both [https] and [pfx]), the HTTPS factory is chosen exactly when
    [https] is set, or [http2] is not set and either [key] and [cert]
    are set or [pfx] is set. In particular it is chosen whenever
    [https] is set, whatever [http2] is. *)
Theorem createServer_selects_https this o w :
  truthy (key o) = truthy (cert o) →
  truthy (https o) && truthy (pfx o) = false →
  (selects (Https Base) w (createServer this o w).2 ↔ httpsWanted o)
  ∧ (truthy (https o) = true → selects (Https Base) w (createServer this o w).2).
Proof.
  intros Hkc Hhp.
  assert (selects (Https Base) w (createServer this o w).2 ↔ httpsWanted o) as Hiff.
  { destruct (createServer_valid this o w Hkc Hhp) as (r1 & w1 & Hsel & Hrest).
    destruct (chooseFactory_spec o w r1 w1 Hsel) as [Hw1 Hhttps].
    rewrite <- Hhttps. unfold selects. destruct r1 as [F|e].
    - destruct Hrest as (r & w' & -> & Hcalls). simpl.
      destruct Hw1 as [->| ->]; simpl in Hcalls.
      + rewrite (newCalls_app _ _ _ Hcalls).
        rewrite !elem_of_cons, elem_of_nil. intuition congruence.
      + rewrite <- app_assoc in Hcalls. rewrite (newCalls_app _ _ _ Hcalls).
        simpl. rewrite !elem_of_cons, elem_of_nil. intuition congruence.
    - rewrite Hrest. simpl. destruct Hw1 as [->| ->].
      + rewrite (newCalls_app w w []) by (by rewrite app_nil_r).
        rewrite elem_of_nil. intuition congruence.
      + rewrite (newCalls_app w _ [CallLoadModule (server o)]) by done.
        rewrite !elem_of_cons, elem_of_nil. intuition congruence. }
  split; [done|]. intros Hh. apply Hiff. by left.
Qed.

(** C2. When exactly one of [key] and [cert] is set, or [https] and
    [pfx] are both set, [createServer] throws one of the two
    configuration errors, and the process is as it was before the
    call: no factory was instantiated, no server object made, no
    collaborator called. *)
Theorem createServer_config_conflict this o w :
  xorb (truthy (key o)) (truthy (cert o)) = true
  ∨ (truthy (https o) = true ∧ truthy (pfx o) = true) →
  ∃ e, createServer this o w = (Throw e, w) ∧ ConfigConflict e.
Proof.
  unfold createServer, ConfigConflict.
  destruct (truthy (key o)), (truthy (cert o)); simpl.
  - intros [?|[-> ->]]; [done|]. simpl. eexists. split; [done|]. by right.
  - intros _. eexists. split; [done|]. by left.
  - intros _. eexists. split; [done|]. by left.
  - intros [?|[-> ->]]; [done|]. simpl. eexists. split; [done|]. by right.
Qed.

End CreateServer.

(** C1 as first stated fails: with [https] and [pfx] both set the first
    condition holds, yet [createServer] throws in its validation and no
    factory is chosen. *)
Lemma createServer_https_and_pfx_selects_nothing :
  ¬ (∀ (env : Collaborators) this o w,
       selects (Https Base) w (createServer (env := env) this o w).2 ↔ httpsWanted o).
Proof.
  intros Hclaim.
  pose (o := Sample.withPfx (VStr "server.pfx") (Sample.withHttps (VBool true) Sample.none)).
  destruct (Hclaim Sample.collaborators (LwsRef 0) o initialWorld) as [_ Hsel].
  assert (httpsWanted o) as Hwanted by (by left).
  specialize (Hsel Hwanted). unfold selects in Hsel.
  change (newCalls _ _) with (@nil Call) in Hsel.
  by apply elem_of_nil in Hsel.
Qed.

Lemma createServer_selects_https_witness :
  let o := Sample.withHttps (VBool true) (Sample.withHttp2 (VBool true) Sample.none) in
  (selects (Https Base) initialWorld
     (createServer (env := Sample.collaborators) (LwsRef 0) o initialWorld).2 ↔ httpsWanted o)
  ∧ (truthy (https o) = true →
     selects (Https Base) initialWorld
       (createServer (env := Sample.collaborators) (LwsRef 0) o initialWorld).2).
Proof.
  intros o. apply (createServer_selects_https (LwsRef 0) o initialWorld); reflexivity.
Defined.

Lemma createServer_config_conflict_witness :
  ∃ e, createServer (env := Sample.collaborators) (LwsRef 0)
         (Sample.withKey (VStr "server.key") Sample.none) initialWorld
       = (Throw e, initialWorld) ∧ ConfigConflict e.
Proof.
  apply (createServer_config_conflict (LwsRef 0)
           (Sample.withKey (VStr "server.key") Sample.none) initialWorld).
  left. reflexivity.
Defined.

(** ** Events on one server *)

Section ServerEvents.
Context {env : Collaborators}.

Lemma serverStep_connection srv st r w :
  streams srv = [st] →
  serverStep (Connection r w) srv
  = (mkServer (factory srv) (addContext srv) (srvMaxConnections srv)
       (srvKeepAliveTimeout srv) [mkStream (cId st + 1) (requestId st) (options st)]
       (sockets srv ++ [Socket.mk (VNum (cId st)) r w
                          (onSocket (Socket.mk (VNum (cId st)) r w []))])
       (requests srv) (apps srv) (listenArgs srv),
     [("server.socket.new", socketProperties (Socket.mk (VNum (cId st)) r w []))]).
Proof. intros Hst. unfold serverStep. rewrite Hst. reflexivity. Qed.

Lemma serverStep_request srv st :
  streams srv = [st] →
  serverStep Request srv
  = (mkServer (factory srv) (addContext srv) (srvMaxConnections srv)
       (srvKeepAliveTimeout srv) [mkStream (cId st) (requestId st + 1) (options st)]
       (sockets srv) (requests srv ++ [VNum (requestId st)])
       (apps srv) (listenArgs srv),
     []).
Proof. intros Hst. unfold serverStep. rewrite Hst. reflexivity. Qed.

(** What a socket writes for an event, once the ['connection']
    listener has run on it: one event, with the properties of the
    socket as they are now for [data], [drain], [timeout] and [close],
    and as they were when the listeners were made for [connect], [end]
    and [lookup]. *)
Lemma socketEmit_installed socket snap ev err :
  Socket.listeners socket = onSocket snap →
  socketEmit socket ev err
  = [(socketKey ev,
      match ev with
      | connect | end_ | lookup => socketProperties snap
      | error => PObject {[ "err" := err ]}
      | data | drain | timeout | close => socketProperties socket
      end)].
Proof.
  intros Hls. unfold socketEmit. rewrite Hls. by destruct ev.
Qed.

Lemma serverStep_inv ev srv : serverInv srv → serverInv (serverStep ev srv).1.
Proof.
  intros (st & Hst & HcId & Hreq & Hsockets & Hrequests & Hlisten).
  destruct ev as [r w|i r w|i ev err| | |ifaces].
  - rewrite (serverStep_connection srv st r w Hst). simpl.
    eexists. split; [done|]. simpl. rewrite length_app. simpl.
    split; [lia|]. split; [done|]. split; [|done].
    intros i socket [[_ Hold]|[-> <-]]%lookup_snoc_Some.
    + by apply Hsockets.
    + simpl. rewrite HcId. split; [done|]. by exists r, w.
  - exists st. simpl. rewrite length_alter.
    split; [done|]. split; [done|]. split; [done|]. split; [|done].
    intros j socket Hj. destruct (decide (i = j)) as [<-|Hne].
    + rewrite list_lookup_alter_eq in Hj.
      destruct (sockets srv !! i) as [old|] eqn:Hold; [|done].
      injection Hj as <-. simpl.
      apply Hsockets in Hold as [Hid (r0 & w0 & Hls)].
      split; [done|]. by exists r0, w0.
    + rewrite list_lookup_alter_ne in Hj by done. by apply Hsockets.
  - simpl. destruct (sockets srv !! i); simpl; exists st; done.
  - rewrite (serverStep_request srv st Hst). simpl.
    eexists. split; [done|]. simpl. rewrite length_app. simpl.
    split; [done|]. split; [lia|]. split; [done|]. split; [|done].
    intros i req [[_ Hold]|[-> <-]]%lookup_snoc_Some.
    + by apply Hrequests.
    + by rewrite Hreq.
  - simpl. exists st. done.
  - simpl. destruct (listenArgs srv) eqn:Hargs; simpl; exists st; rewrite ?Hargs; done.
Qed.

End ServerEvents.

(** ** What [createServer] and [listen] do to the process *)

Section ListenEffect.
Context {env : Collaborators}.

Lemma createServer_effect this o w r w' :
  createServer this o w = (r, w') →
  log w' = log w ∧ timers w' = timers w ∧
  match r with
  | Throw _ => servers w' = servers w
  | Ok n => ∃ F b, servers w'
                   = <[n := mkServer F b VUndefined VUndefined [] [] [] [] None]> (servers w)
  end.
Proof.
  unfold createServer.
  destruct (_ || _); [by returned|].
  destruct (_ && _); [by returned|].
  run_monad. destruct (chooseFactory o w) as [[F|e] w1] eqn:Hsel;
    destruct (chooseFactory_spec o w _ w1 Hsel) as [Hw1 _].
  - unfold propagate. run_monad.
    destruct (create F o) as [b|e]; simpl; returned; simpl;
      destruct Hw1 as [->| ->]; simpl; eauto.
  - returned. by destruct Hw1 as [->| ->].
Qed.

Lemma assembleStack_effect o w r w' :
  assembleStack o w = (r, w') →
  log w' = log w ∧ timers w' = timers w ∧ servers w' = servers w.
Proof.
  unfold assembleStack. simpl.
  destruct (arrayify (stack o)); run_monad;
    try destruct (stackFrom _ _); simpl; by returned.
Qed.

(** A call of [listen] emits nothing. It either leaves the servers and
    timers as they were and throws, or adds one server, with one stream
    and no socket or request yet: not listening if [listen] throws, and
    listening on the merged port and hostname, with the memory timer
    started, if [listen] returns it. *)
Lemma listen_effect this o w r w' :
  listen this o w = (r, w') →
  log w' = log w ∧
  ((servers w' = servers w ∧ timers w' = timers w ∧ ∃ e, r = Throw e)
   ∨ ∃ cfg n srv,
       getStoredConfig (configFile o) = Ok cfg
       ∧ servers w' = <[n := srv]> (servers w)
       ∧ streams srv = [mkStream 1 1 (deepMerge defaults cfg o)]
       ∧ sockets srv = [] ∧ requests srv = []
       ∧ ((listenArgs srv = None ∧ timers w' = timers w ∧ ∃ e, r = Throw e)
          ∨ (listenArgs srv = Some (port (deepMerge defaults cfg o),
                                    hostname (deepMerge defaults cfg o))
             ∧ timers w' = timers w ++ [mkTimer this 60000 true false]
             ∧ r = Ok n))).
Proof.
  unfold listen. run_monad.
  destruct (getStoredConfig (configFile o)) as [cfg|e]; [|returned; eauto 10].
  set (o1 := deepMerge defaults cfg o).
  destruct (createServer this o1 w) as [[n|e] w1] eqn:Hcreate;
    destruct (createServer_effect this o1 w _ w1 Hcreate) as (Hlog1 & Htimers1 & Hservers1);
    [|returned; eauto 10].
  destruct Hservers1 as (F & b & Hservers1).
  unfold createServerEventStream, propagate. run_monad.
  destruct (isDefined (maxConnections o1)), (isDefined (keepAliveTimeout o1)); simpl.
  all: destruct (assembleStack o1 _) as [[s|e] w2] eqn:Hasm;
    destruct (assembleStack_effect _ _ _ _ Hasm) as (Hlog2 & Htimers2 & Hservers2);
    simpl in Hlog2, Htimers2, Hservers2;
    rewrite Hservers1, ?alter_insert_eq in Hservers2;
    [destruct (getMiddlewareFunctions _ _) as [mws|e]|];
    returned; simpl; rewrite ?removelast_last, Hlog2, Htimers2, Hservers2, ?alter_insert_eq;
    (split; [congruence|]); right; exists cfg, n; eexists;
    (split; [done|]); (split; [done|]); simpl;
    (split; [done|]); (split; [done|]); (split; [done|]);
    first [ right; by rewrite Htimers1 | left; rewrite Htimers1; eauto ].
Qed.

End ListenEffect.

(** ** Invariants of the process *)

Section Process.
Context {env : Collaborators}.

Lemma listen_inv this o w : worldInv w → worldInv (listen this o w).2.
Proof.
  intros Hinv. destruct (listen this o w) as [r w'] eqn:Hlisten.
  destruct (listen_effect this o w r w' Hlisten) as [_ [(Hservers & _)|Hnew]]; simpl.
  - unfold worldInv. by rewrite Hservers.
  - destruct Hnew as (cfg & n & srv & _ & Hservers & Hst & Hso & Hre & Hargs).
    intros m srv'. rewrite Hservers, lookup_insert.
    case_decide; [|by apply Hinv]. intros [= <-].
    eexists. split; [done|]. rewrite Hso, Hre. simpl.
    split; [done|]. split; [done|]. split; [done|]. split; [done|].
    intros p h. destruct Hargs as [(-> & _)|(-> & _)]; [done|]. by intros [= <- <-].
Qed.

Lemma step_inv ev w : worldInv w → worldInv (step ev w).
Proof.
  intros Hinv. destruct ev as [n e|i mem|n i err]; simpl.
  - destruct (servers w !! n) as [srv|] eqn:Hsrv; [|done].
    pose proof (serverStep_inv e srv (Hinv n srv Hsrv)) as Hstep.
    destruct (serverStep e srv) as [srv' writes]. simpl in *.
    intros m srv''. simpl. rewrite lookup_insert. case_decide; [|by apply Hinv].
    by intros [= <-].
  - destruct (timers w !! i) as [t|]; [|done]. by destruct (repeat t).
  - destruct (servers w !! n ≫= _) as [[this mws]|]; done.
Qed.

Lemma act_inv a w : worldInv w → worldInv (act a w).
Proof. destruct a; [apply listen_inv | apply step_inv]. Qed.

Lemma run_inv l : ∀ w, worldInv w → worldInv (run l w).
Proof.
  induction l as [|a l IH]; intros w Hinv; [done|].
  simpl. apply IH. by apply act_inv.
Qed.

Lemma initialWorld_inv : worldInv initialWorld.
Proof. intros n srv. simpl. by rewrite lookup_empty. Qed.

End Process.

(** ** What one turn of the event loop emits *)

Section Emissions.
Context {env : Collaborators}.

Lemma newLog_app w w' es : log w' = log w ++ es → newLog w w' = es.
Proof. intros Heq. unfold newLog. rewrite Heq. apply drop_app_length. Qed.

(** A socket event on a socket of a server: one verbose event on that
    server, and nothing else changes. *)
Lemma step_socketEmit w n srv i socket snap ev err :
  servers w !! n = Some srv →
  sockets srv !! i = Some socket →
  Socket.listeners socket = onSocket snap →
  log (step (OnServer n (SocketEmit i ev err)) w)
  = log w ++ [mkEmission (ServerRef n) (socketKey ev)
                (match ev with
                 | connect | end_ | lookup => socketProperties snap
                 | error => PObject {[ "err" := err ]}
                 | data | drain | timeout | close => socketProperties socket
                 end)]
  ∧ servers (step (OnServer n (SocketEmit i ev err)) w) = servers w.
Proof.
  intros Hsrv Hsocket Hls. simpl. rewrite Hsrv. simpl. rewrite Hsocket.
  rewrite (socketEmit_installed socket snap ev err Hls). simpl.
  split; [done|]. by apply insert_id.
Qed.

(** The keys one event on a server can write. *)
Lemma serverStep_keys ev srv k v :
  serverInv srv →
  (k, v) ∈ (serverStep ev srv).2 →
  match ev with
  | Connection _ _ => k = "server.socket.new"
  | SocketEmit _ ev _ => k = socketKey ev
  | Closed => k = "server.close"
  | Listening _ => k = "server.listening" ∧ is_Some (listenArgs srv)
  | Transfer _ _ _ | Request => False
  end.
Proof.
  intros (st & Hst & _ & _ & Hsockets & _ & _).
  destruct ev as [r w|i r w|i ev err| | |ifaces].
  - rewrite (serverStep_connection srv st r w Hst). simpl.
    by intros [[= -> _]|?%elem_of_nil]%elem_of_cons.
  - simpl. by intros ?%elem_of_nil.
  - simpl. destruct (sockets srv !! i) as [socket|] eqn:Hsocket; simpl.
    + destruct (Hsockets i socket Hsocket) as [_ (r0 & w0 & Hls)].
      rewrite (socketEmit_installed socket _ ev err Hls).
      by intros [[= -> _]|?%elem_of_nil]%elem_of_cons.
    + by intros ?%elem_of_nil.
  - rewrite (serverStep_request srv st Hst). simpl. by intros ?%elem_of_nil.
  - simpl. rewrite Hst. simpl. by intros [[= -> _]|?%elem_of_nil]%elem_of_cons.
  - simpl. destruct (listenArgs srv) as [args|]; simpl; [|by intros ?%elem_of_nil].
    rewrite Hst. simpl. by intros [[= -> _]|?%elem_of_nil]%elem_of_cons.
Qed.

Lemma step_emits ev w :
  worldInv w →
  ∃ new, log (step ev w) = log w ++ new ∧ Forall (allowed w) new.
Proof.
  intros Hinv. destruct ev as [n e|i mem|n i err]; simpl.
  - destruct (servers w !! n) as [srv|] eqn:Hsrv;
      [|exists []; by rewrite app_nil_r].
    pose proof (λ k v, serverStep_keys e srv k v (Hinv n srv Hsrv)) as Hkeys.
    destruct (serverStep e srv) as [srv' writes]. simpl in *.
    eexists. split; [done|].
    apply Forall_forall. intros x [[k v] [-> Hin]]%list_elem_of_fmap.
    specialize (Hkeys k v Hin). unfold allowed. simpl.
    destruct e as [r w0|j r w0|j ev err| | |ifaces]; try done.
    + subst k. split; [done|]. done.
    + subst k. split; [by destruct ev|]. by destruct ev.
    + subst k. split; [done|]. done.
    + destruct Hkeys as [-> Hargs]. split; [done|].
      intros _. exists n. split; [done|]. by exists srv.
  - destruct (timers w !! i) as [t|]; [|exists []; by rewrite app_nil_r].
    eexists. split; [by destruct (repeat t)|].
    constructor; [|done]. split; [done|]. done.
  - destruct (servers w !! n ≫= _) as [[this mws]|];
      [|exists []; by rewrite app_nil_r].
    eexists. split; [done|]. constructor; [|done]. split; [done|]. done.
Qed.

(** The event loop starts no server and stops none. *)
Lemma step_isListening ev w n : isListening (step ev w) n ↔ isListening w n.
Proof.
  unfold isListening. destruct ev as [m e|i mem|m i err]; simpl.
  - destruct (servers w !! m) as [srv|] eqn:Hsrv; [|done].
    assert (listenArgs (serverStep e srv).1 = listenArgs srv) as Hargs.
    { destruct e; simpl; try done.
      - by destruct (foldl _ _ _) as [[? ?] ?].
      - by destruct (sockets srv !! _).
      - by destruct (foldl _ _ _) as [? ?].
      - destruct (listenArgs srv) eqn:Hsome; simpl; by rewrite Hsome. }
    destruct (serverStep e srv) as [srv' writes]. simpl in *.
    destruct (decide (m = n)) as [->|Hne].
    + rewrite lookup_insert_eq, Hsrv. split.
      * intros (srv0 & Heq & Hsome). injection Heq as <-.
        exists srv. split; [done|]. by rewrite <- Hargs.
      * intros (srv0 & Heq & Hsome). injection Heq as <-.
        exists srv'. split; [done|]. by rewrite Hargs.
    + by rewrite lookup_insert_ne.
  - destruct (timers w !! i) as [t|]; [|done]. by destruct (repeat t).
  - by destruct (servers w !! m ≫= _) as [[this mws]|].
Qed.

End Emissions.

(** ** Connection and request ids *)

Section Ids.
Context {env : Collaborators}.

(** C4, as amended. Connection ids and request ids come from two
    counters that each call of [createServerEventStream], hence each
    server, has of its own. Both start at 1. On every server of every
    run of the process, the socket that arrived [i]-th (counting from
    0) has id [i + 1] and the request that arrived [i]-th has id
    [i + 1], whatever was closed or happened in between: an id is given
    once, when the object is first seen, and is not given again on
    that server. *)
Theorem ids_count_up_on_each_server actions n srv :
  servers (run actions initialWorld) !! n = Some srv →
  (∀ i socket, sockets srv !! i = Some socket →
     Socket.id socket = VNum (1 + Z.of_nat i))
  ∧ (∀ i req, requests srv !! i = Some req → req = VNum (1 + Z.of_nat i)).
Proof.
  intros Hsrv.
  destruct (run_inv actions initialWorld initialWorld_inv n srv Hsrv)
    as (st & _ & _ & _ & Hsockets & Hrequests & _).
  split; [|done]. intros i socket Hsocket. by apply Hsockets.
Qed.

End Ids.

(** C4 as first stated fails: the counters are not shared by the
    process. Two servers started in one process both give id 1 to
    their first socket. *)
Lemma two_servers_give_the_same_socket_id :
  ¬ (∀ (env : Collaborators) actions,
       NoDup (allSocketIds (run (env := env) actions initialWorld))).
Proof.
  intros Hclaim.
  specialize (Hclaim Sample.collaborators
    [Listen 0 Sample.none; Listen 0 Sample.none;
     Deliver (OnServer 1 (Connection 0 0)); Deliver (OnServer 4 (Connection 0 0))]).
  assert (allSocketIds
            (run (env := Sample.collaborators)
               [Listen 0 Sample.none; Listen 0 Sample.none;
                Deliver (OnServer 1 (Connection 0 0));
                Deliver (OnServer 4 (Connection 0 0))] initialWorld)
          = [VNum 1; VNum 1]) as Hids by (vm_compute; reflexivity).
  rewrite Hids in Hclaim. apply NoDup_cons in Hclaim as [Hnotin _].
  apply Hnotin. by left.
Qed.

Lemma ids_count_up_on_each_server_witness :
  ∃ srv,
    servers (run (env := Sample.collaborators)
               [Listen 0 Sample.none;
                Deliver (OnServer 1 (Connection 0 0));
                Deliver (OnServer 1 (SocketEmit 0 close VUndefined));
                Deliver (OnServer 1 Request);
                Deliver (OnServer 1 (Connection 0 0))] initialWorld) !! 1%nat = Some srv
    ∧ (∀ i socket, sockets srv !! i = Some socket →
         Socket.id socket = VNum (1 + Z.of_nat i))
    ∧ (∀ i req, requests srv !! i = Some req → req = VNum (1 + Z.of_nat i)).
Proof.
  eexists. split; [vm_compute; reflexivity|].
  apply (ids_count_up_on_each_server (env := Sample.collaborators)
           [Listen 0 Sample.none;
            Deliver (OnServer 1 (Connection 0 0));
            Deliver (OnServer 1 (SocketEmit 0 close VUndefined));
            Deliver (OnServer 1 Request);
            Deliver (OnServer 1 (Connection 0 0))] 1%nat).
  vm_compute. reflexivity.
Defined.

(** Three sockets opened and closed one after the other, then a
    fourth: it has id 4. *)
Example fourth_socket_has_id_4 :
  allSocketIds
    (run (env := Sample.collaborators)
       [Listen 0 Sample.none;
        Deliver (OnServer 1 (Connection 0 0));
        Deliver (OnServer 1 (SocketEmit 0 close VUndefined));
        Deliver (OnServer 1 (Connection 0 0));
        Deliver (OnServer 1 (SocketEmit 1 close VUndefined));
        Deliver (OnServer 1 (Connection 0 0));
        Deliver (OnServer 1 (SocketEmit 2 close VUndefined));
        Deliver (OnServer 1 (Connection 0 0))] initialWorld)
  = [VNum 1; VNum 2; VNum 3; VNum 4].
Proof. vm_compute. reflexivity. Qed.

(** ** Socket events *)

Section SocketEvents.
Context {env : Collaborators}.

Lemma act_log_invariant (P : Emission → Prop) a w :
  (∀ w1 x, allowed w1 x → P x) →
  worldInv w → Forall P (log w) → Forall P (log (act a w)).
Proof.
  intros Himp Hinv Hlog. destruct a as [this o|ev]; simpl.
  - destruct (listen (LwsRef this) o w) as [r w'] eqn:Hlisten.
    destruct (listen_effect _ o w r w' Hlisten) as [Heq _]. simpl. by rewrite Heq.
  - destruct (step_emits ev w Hinv) as (new & -> & Hnew).
    apply Forall_app. split; [done|].
    eapply Forall_impl; [exact Hnew|]. intros x. apply Himp.
Qed.

Lemma run_log_invariant (P : Emission → Prop) l :
  (∀ w1 x, allowed w1 x → P x) →
  ∀ w, worldInv w → Forall P (log w) → Forall P (log (run l w)).
Proof.
  intros Himp. induction l as [|a l IH]; intros w Hinv Hlog; [done|].
  simpl. apply IH; [by apply act_inv | by apply act_log_invariant].
Qed.

(** C10. No run of the process emits the key ["server.socket.lookup"].
    On every socket of every server the [lookup] event writes the key
    ["server.socket.connect"], with the payload that [connect] writes:
    a socket on which both fire is seen emitting
    ["server.socket.connect"] twice. *)
Theorem lookup_is_reported_as_connect :
  (∀ actions,
     Forall (λ x, Emitter.key x ≠ "server.socket.lookup")
       (log (run actions initialWorld)))
  ∧ (∀ actions n srv i socket err err',
       servers (run actions initialWorld) !! n = Some srv →
       sockets srv !! i = Some socket →
       ∃ p,
         newLog (run actions initialWorld)
           (step (OnServer n (SocketEmit i lookup err)) (run actions initialWorld))
         = [mkEmission (ServerRef n) "server.socket.connect" p]
         ∧ log (run [Deliver (OnServer n (SocketEmit i connect err));
                     Deliver (OnServer n (SocketEmit i lookup err'))]
                  (run actions initialWorld))
           = log (run actions initialWorld)
               ++ [mkEmission (ServerRef n) "server.socket.connect" p;
                   mkEmission (ServerRef n) "server.socket.connect" p]).
Proof.
  split.
  - intros actions. apply run_log_invariant; [|apply initialWorld_inv|done].
    by intros w1 x [Hkey _].
  - intros actions n srv i socket err err' Hsrv Hsocket.
    set (w := run actions initialWorld) in *.
    destruct (run_inv actions initialWorld initialWorld_inv n srv Hsrv)
      as (st & _ & _ & _ & Hsockets & _).
    destruct (Hsockets i socket Hsocket) as [_ (r0 & w0 & Hls)].
    eexists. split.
    + apply newLog_app.
      by destruct (step_socketEmit w n srv i socket _ lookup err Hsrv Hsocket Hls) as [-> _].
    + cbn [run act].
      destruct (step_socketEmit w n srv i socket _ connect err Hsrv Hsocket Hls)
        as [Hlog1 Hservers1].
      rewrite <- Hservers1 in Hsrv.
      destruct (step_socketEmit _ n srv i socket _ lookup err' Hsrv Hsocket Hls)
        as [-> _].
      rewrite Hlog1. by rewrite <- app_assoc.
Qed.

(** On any server with one stream and for any collaborators: after a
    socket connects with counters [r] and [w] and these grow by [dr]
    and [dw], [end] writes the properties read at connection time,
    while [data] writes the current ones. *)
Lemma end_payload_is_read_at_connection srv st r w dr dw err :
  streams srv = [st] →
  let i := length (sockets srv) in
  let srv1 := (serverStep (Connection r w) srv).1 in
  let srv2 := (serverStep (Transfer i dr dw) srv1).1 in
  (serverStep (SocketEmit i end_ err) srv2).2
  = [("server.socket.end", socketProperties (Socket.mk (VNum (cId st)) r w []))]
  ∧ (serverStep (SocketEmit i data err) srv2).2
    = [("server.socket.data",
        socketProperties (Socket.mk (VNum (cId st)) (r + dr) (w + dw) []))].
Proof.
  intros Hst i srv1 srv2. subst srv1 srv2.
  rewrite (serverStep_connection srv st r w Hst). simpl.
  rewrite list_lookup_alter_eq, list_lookup_middle by done. simpl.
  split.
  - by rewrite (socketEmit_installed _ (Socket.mk (VNum (cId st)) r w []) end_ err).
  - by rewrite (socketEmit_installed _ (Socket.mk (VNum (cId st)) r w []) data err).
Qed.

End SocketEvents.

Lemma lookup_is_reported_as_connect_witness :
  ∃ p,
    newLog
      (run (env := Sample.collaborators)
         [Listen 0 Sample.none; Deliver (OnServer 1 (Connection 0 0))] initialWorld)
      (step (env := Sample.collaborators) (OnServer 1 (SocketEmit 0 lookup VUndefined))
         (run (env := Sample.collaborators)
            [Listen 0 Sample.none; Deliver (OnServer 1 (Connection 0 0))] initialWorld))
    = [mkEmission (ServerRef 1) "server.socket.connect" p]
    ∧ log (run (env := Sample.collaborators)
             [Deliver (OnServer 1 (SocketEmit 0 connect VUndefined));
              Deliver (OnServer 1 (SocketEmit 0 lookup VUndefined))]
             (run (env := Sample.collaborators)
                [Listen 0 Sample.none; Deliver (OnServer 1 (Connection 0 0))] initialWorld))
      = log (run (env := Sample.collaborators)
               [Listen 0 Sample.none; Deliver (OnServer 1 (Connection 0 0))] initialWorld)
          ++ [mkEmission (ServerRef 1) "server.socket.connect" p;
              mkEmission (ServerRef 1) "server.socket.connect" p].
Proof.
  eapply (proj2 (lookup_is_reported_as_connect (env := Sample.collaborators))
            [Listen 0 Sample.none; Deliver (OnServer 1 (Connection 0 0))]
            1%nat _ 0%nat _ VUndefined VUndefined).
  - vm_compute. reflexivity.
  - vm_compute. reflexivity.
Defined.

(** C3 fails on the code for [connect] and [end]. A socket connects
    with both counters 0; 1500 bytes are read and 300 written; [data]
    fires, then [end]. The [data] event shows the counters as they
    are. The [end] event shows them as they were when the socket
    connected. *)
Theorem socket_end_reports_the_counters_of_connection_time :
  log (run (env := Sample.collaborators)
         [Listen 0 Sample.none;
          Deliver (OnServer 1 (Connection 0 0));
          Deliver (OnServer 1 (Transfer 0 1500 300));
          Deliver (OnServer 1 (SocketEmit 0 data VUndefined));
          Deliver (OnServer 1 (SocketEmit 0 end_ VUndefined))] initialWorld)
  = [mkEmission (ServerRef 1) "server.socket.new"
       (PObject {[ "socketId" := VNum 1; "bytesRead" := VStr "0 B";
                   "bytesWritten" := VStr "0 B" ]});
     mkEmission (ServerRef 1) "server.socket.data"
       (PObject {[ "socketId" := VNum 1; "bytesRead" := VStr "1.5 kB";
                   "bytesWritten" := VStr "300 B" ]});
     mkEmission (ServerRef 1) "server.socket.end"
       (PObject {[ "socketId" := VNum 1; "bytesRead" := VStr "0 B";
                   "bytesWritten" := VStr "0 B" ]})].
Proof. vm_compute. reflexivity. Qed.

(** ** The listening transition *)

Section ListeningEvent.
Context {env : Collaborators}.

(** C7. When a server of the process starts listening, one
    [server.listening] event is emitted on it. Its payload is the list
    of URLs [scheme://host:port], with the port given to
    [server.listen]: the one URL of the hostname given to
    [server.listen] if there is one, else one URL per interface
    address, in the order of the interfaces. The scheme is [https] if
    the server has an [addContext] method and [http] if not. *)
Theorem listening_emits_the_endpoints actions n srv p h ifaces :
  servers (run actions initialWorld) !! n = Some srv →
  listenArgs srv = Some (p, h) →
  newLog (run actions initialWorld)
    (step (OnServer n (Listening ifaces)) (run actions initialWorld))
  = [mkEmission (ServerRef n) "server.listening"
       (PArray (if truthy h
                then [endpoint (addContext srv) h p]
                else (λ address, endpoint (addContext srv) address p) <$> ifaces))].
Proof.
  intros Hsrv Hargs.
  destruct (run_inv actions initialWorld initialWorld_inv n srv Hsrv)
    as (st & Hst & _ & _ & _ & _ & Hlisten).
  destruct (Hlisten p h Hargs) as [-> ->].
  apply newLog_app. simpl. rewrite Hsrv. simpl. rewrite Hargs, Hst. done.
Qed.

End ListeningEvent.

Lemma listening_emits_the_endpoints_witness :
  ∃ srv,
    servers (run (env := Sample.collaborators)
               [Listen 0 (Sample.withHttps (VBool true)
                            (Sample.withHost (VNum 9000) (VStr "localhost") Sample.none))]
               initialWorld) !! 1%nat = Some srv
    ∧ newLog
        (run (env := Sample.collaborators)
           [Listen 0 (Sample.withHttps (VBool true)
                        (Sample.withHost (VNum 9000) (VStr "localhost") Sample.none))]
           initialWorld)
        (step (env := Sample.collaborators) (OnServer 1 (Listening [VStr "10.0.0.1"]))
           (run (env := Sample.collaborators)
              [Listen 0 (Sample.withHttps (VBool true)
                           (Sample.withHost (VNum 9000) (VStr "localhost") Sample.none))]
              initialWorld))
      = [mkEmission (ServerRef 1) "server.listening"
           (PArray (if truthy (VStr "localhost")
                    then [endpoint (addContext srv) (VStr "localhost") (VNum 9000)]
                    else (λ address, endpoint (addContext srv) address (VNum 9000))
                         <$> [VStr "10.0.0.1"]))].
Proof.
  eexists. split; [vm_compute; reflexivity|].
  apply (listening_emits_the_endpoints (env := Sample.collaborators)
           [Listen 0 (Sample.withHttps (VBool true)
                        (Sample.withHost (VNum 9000) (VStr "localhost") Sample.none))]
           1%nat _ (VNum 9000) (VStr "localhost") [VStr "10.0.0.1"]).
  - vm_compute. reflexivity.
  - reflexivity.
Defined.

(** Hostname [localhost], port 9000, a server with a TLS context. *)
Example listening_on_localhost_9000_secure :
  log (run (env := Sample.collaborators)
         [Listen 0 (Sample.withHttps (VBool true)
                      (Sample.withHost (VNum 9000) (VStr "localhost") Sample.none));
          Deliver (OnServer 1 (Listening [VStr "10.0.0.1"; VStr "192.168.1.1"]))]
         initialWorld)
  = [mkEmission (ServerRef 1) "server.listening" (PArray [VStr "https://localhost:9000"])].
Proof. vm_compute. reflexivity. Qed.

(** No hostname, two interfaces, port 8000 by default, plain HTTP. *)
Example listening_on_two_interfaces :
  log (run (env := Sample.collaborators)
         [Listen 0 Sample.none;
          Deliver (OnServer 1 (Listening [VStr "10.0.0.1"; VStr "192.168.1.1"]))]
         initialWorld)
  = [mkEmission (ServerRef 1) "server.listening"
       (PArray [VStr "http://10.0.0.1:8000"; VStr "http://192.168.1.1:8000"])].
Proof. vm_compute. reflexivity. Qed.

(** ** Startup failures *)

Section Startup.
Context {env : Collaborators}.

(** Events alone emit [server.listening] only on servers that listen
    already, and make no server listen. *)
Lemma run_deliver evs : ∀ w,
  worldInv w →
  ∃ new, log (run (Deliver <$> evs) w) = log w ++ new
         ∧ Forall (allowed w) new
         ∧ ∀ n, isListening (run (Deliver <$> evs) w) n ↔ isListening w n.
Proof.
  induction evs as [|ev evs IH]; intros w Hinv.
  - exists []. simpl. by rewrite app_nil_r.
  - destruct (step_emits ev w Hinv) as (new1 & Hlog1 & Hnew1).
    destruct (IH (step ev w) (step_inv ev w Hinv)) as (new2 & Hlog2 & Hnew2 & Hlistening).
    exists (new1 ++ new2). cbn [fmap list_fmap run act]. split; [|split].
    + change (list_fmap _ _ Deliver evs) with (Deliver <$> evs).
      by rewrite Hlog2, Hlog1, <- app_assoc.
    + apply Forall_app. split; [done|].
      eapply Forall_impl; [exact Hnew2|]. intros x [Hkey Hsrc]. split; [done|].
      intros Hk. destruct (Hsrc Hk) as (n & Hn & Hl). exists n. split; [done|].
      by apply (step_isListening ev w n).
    + intros n. change (list_fmap _ _ Deliver evs) with (Deliver <$> evs).
      rewrite Hlistening. apply step_isListening.
Qed.

Lemma failed_listen this o w e w' :
  worldInv w →
  listen this o w = (Throw e, w') →
  worldInv w' ∧ log w' = log w ∧ ∀ n, isListening w' n → isListening w n.
Proof.
  intros Hinv Hlisten. split; [|split].
  - pose proof (listen_inv this o w Hinv) as Hinv'. by rewrite Hlisten in Hinv'.
  - by destruct (listen_effect this o w _ w' Hlisten) as [-> _].
  - destruct (listen_effect this o w _ w' Hlisten) as [_ [(Hservers & _)|Hnew]].
    + unfold isListening. by rewrite Hservers.
    + destruct Hnew as (cfg & m & srv & _ & Hservers & _ & _ & _ & Hargs).
      destruct Hargs as [(Hnone & _)|(_ & _ & [=])].
      intros n (srv' & Hsrv' & Hsome). rewrite Hservers in Hsrv'.
      apply lookup_insert_Some in Hsrv' as [[_ <-]|[_ Hold]].
      * rewrite Hnone in Hsome. by destruct Hsome.
      * by exists srv'.
Qed.

(** C6. A failure of the validation in [createServer], or of the
    resolution of the middleware stack, is thrown by [listen] to its
    caller. After any call of [listen] that throws, whatever the
    process did before, no server listens that did not listen before
    the call, and whatever events follow, [server.listening] is only
    emitted by servers that listened before the call. In a process that
    had started no server, nothing listens and [server.listening] is
    never emitted. *)
Theorem failed_startup_never_listens :
  (∀ this o w cfg e w1,
     getStoredConfig (configFile o) = Ok cfg →
     createServer this (deepMerge defaults cfg o) w = (Throw e, w1) →
     listen this o w = (Throw e, w1))
  ∧ (∀ this o w cfg n w1 specs e,
       getStoredConfig (configFile o) = Ok cfg →
       createServer this (deepMerge defaults cfg o) w = (Ok n, w1) →
       arrayify (stack (deepMerge defaults cfg o)) = StackArray specs →
       stackFrom specs (setStack (StackArray specs) (deepMerge defaults cfg o)) = Throw e →
       ∃ w', listen this o w = (Throw e, w'))
  ∧ (∀ before this o e w' after,
       listen this o (run before initialWorld) = (Throw e, w') →
       (∀ n, isListening (run (Deliver <$> after) w') n →
             isListening (run before initialWorld) n)
       ∧ (∀ x, x ∈ newLog (run before initialWorld) (run (Deliver <$> after) w') →
               Emitter.key x = "server.listening" →
               ∃ n, source x = ServerRef n ∧ isListening (run before initialWorld) n))
  ∧ (∀ this o e w' after,
       listen this o initialWorld = (Throw e, w') →
       (∀ n, ¬ isListening (run (Deliver <$> after) w') n)
       ∧ Forall (λ x, Emitter.key x ≠ "server.listening")
           (log (run (Deliver <$> after) w'))).
Proof.
  assert (∀ before this o e w' after,
       listen this o (run before initialWorld) = (Throw e, w') →
       (∀ n, isListening (run (Deliver <$> after) w') n →
             isListening (run before initialWorld) n)
       ∧ ∃ new, log (run (Deliver <$> after) w') = log (run before initialWorld) ++ new
           ∧ Forall (λ x, Emitter.key x = "server.listening" →
                          ∃ n, source x = ServerRef n
                               ∧ isListening (run before initialWorld) n) new) as Hmain.
  { intros before this o e w' after Hlisten.
    destruct (failed_listen this o _ e w' (run_inv before _ initialWorld_inv) Hlisten)
      as (Hinv' & Hlog' & Hlistening').
    destruct (run_deliver after w' Hinv') as (new & Hlog & Hnew & Hlistening).
    split.
    - intros n Hn. by apply Hlistening', Hlistening.
    - exists new. split; [by rewrite Hlog, Hlog'|].
      eapply Forall_impl; [exact Hnew|]. intros x [_ Hsrc] Hk.
      destruct (Hsrc Hk) as (n & Hn & Hl). exists n. split; [done|].
      by apply Hlistening'. }
  split; [|split; [|split]].
  - intros this o w cfg e w1 Hcfg Hcreate. unfold listen. run_monad.
    by rewrite Hcfg, Hcreate.
  - intros this o w cfg n w1 specs e Hcfg Hcreate Harr Hfrom.
    unfold listen. run_monad. rewrite Hcfg, Hcreate.
    unfold createServerEventStream, propagate, assembleStack. run_monad.
    destruct (isDefined (maxConnections _)), (isDefined (keepAliveTimeout _)); simpl;
      rewrite Harr; simpl; unfold elements; simpl; rewrite Hfrom; simpl; eauto.
  - intros before this o e w' after Hlisten.
    destruct (Hmain before this o e w' after Hlisten) as (Hl & new & Hlog & Hnew).
    split; [done|]. intros x Hx. rewrite (newLog_app _ _ _ Hlog) in Hx.
    by apply (proj1 (Forall_forall _ _) Hnew).
  - intros this o e w' after Hlisten.
    destruct (Hmain [] this o e w' after Hlisten) as (Hl & new & Hlog & Hnew).
    assert (∀ n, ¬ isListening initialWorld n) as Hnone.
    { intros n (srv & Hsrv & _). simpl in Hsrv. by rewrite lookup_empty in Hsrv. }
    split.
    + intros n Hn. by apply (Hnone n), Hl.
    + rewrite Hlog. simpl. eapply Forall_impl; [exact Hnew|].
      intros x Hsrc Hk. destruct (Hsrc Hk) as (n & _ & Hn). by apply (Hnone n).
Qed.

End Startup.

Lemma failed_startup_never_listens_witness :
  let o := Sample.withKey (VStr "server.key") Sample.none in
  let after := [OnServer 1 (Listening [VStr "10.0.0.1"]); OnServer 1 (Connection 0 0)] in
  listen (env := Sample.collaborators) (LwsRef 0) o initialWorld
  = (Throw (VError "--key and --cert must always be supplied together."), initialWorld)
  ∧ (∀ n, ¬ isListening (run (env := Sample.collaborators) (Deliver <$> after) initialWorld) n)
  ∧ Forall (λ x, Emitter.key x ≠ "server.listening")
      (log (run (env := Sample.collaborators) (Deliver <$> after) initialWorld)).
Proof.
  intros o after. split; [vm_compute; reflexivity|].
  apply (proj2 (proj2 (proj2 (failed_startup_never_listens (env := Sample.collaborators))))
           (LwsRef 0) o (VError "--key and --cert must always be supplied together.")
           initialWorld after).
  vm_compute. reflexivity.
Defined.

(** A stack that names a module that cannot be resolved: [listen]
    throws after the server was made, and the server does not listen. *)
Example unresolved_middleware_leaves_no_listening_server :
  let o := setStack (StackArray [SpecModule "lws-static"; SpecModule "missing"]) Sample.none in
  let r := listen (env := Sample.collaborators) (LwsRef 0) o initialWorld in
  r.1 = Throw (VError "module not found: missing")
  ∧ (listenArgs <$> servers r.2 !! 1%nat) = Some None
  ∧ timers r.2 = [].
Proof. vm_compute. done. Qed.

(** ** The memory usage timer *)

Section MemoryTimer.
Context {env : Collaborators}.

(** The callback replaces the four fields by their rendering and
    leaves any other field as it is. *)
Lemma memoryUsage_lookup (m : gmap string Js.value) (k : string) :
  memoryUsage m !! k
  = if bool_decide (k ∈ ["rss"; "heapTotal"; "heapUsed"; "external"])
    then Some (VStr (byteSize (get m k)))
    else m !! k.
Proof.
  unfold memoryUsage, get.
  destruct (decide (k = "external")) as [->|He].
  { rewrite lookup_insert_eq. rewrite !lookup_insert_ne by done. done. }
  rewrite (lookup_insert_ne _ "external" k) by done.
  destruct (decide (k = "heapUsed")) as [->|Hu].
  { rewrite lookup_insert_eq. rewrite !lookup_insert_ne by done. done. }
  rewrite (lookup_insert_ne _ "heapUsed" k) by done.
  destruct (decide (k = "heapTotal")) as [->|Ht].
  { rewrite lookup_insert_eq. rewrite !lookup_insert_ne by done. done. }
  rewrite (lookup_insert_ne _ "heapTotal" k) by done.
  destruct (decide (k = "rss")) as [->|Hr].
  { by rewrite lookup_insert_eq. }
  rewrite (lookup_insert_ne _ "rss" k) by done.
  rewrite bool_decide_eq_false_2; [done|].
  rewrite !elem_of_cons, elem_of_nil. intuition congruence.
Qed.

(** A recurring timer fires as often as the event loop runs it, and
    stays. *)
Lemma run_timer this d r i mems : ∀ w,
  timers w !! i = Some (mkTimer this d true r) →
  timers (run ((λ m, Deliver (OnTimer i m)) <$> mems) w) = timers w
  ∧ log (run ((λ m, Deliver (OnTimer i m)) <$> mems) w)
    = log w ++ ((λ m, mkEmission this "process.memoryUsage" (PObject (memoryUsage m)))
                <$> mems).
Proof.
  induction mems as [|m mems IH]; intros w Ht.
  - simpl. by rewrite app_nil_r.
  - cbn [fmap list_fmap run act step]. rewrite Ht. cbn [repeat owner].
    destruct (IH (emitted [mkEmission this "process.memoryUsage" (PObject (memoryUsage m))] w))
      as [Htimers Hlog]; [done|].
    split; [exact Htimers|]. rewrite Hlog. simpl. by rewrite <- app_assoc.
Qed.

(** C9. A call of [listen] that returns has started one timer: it
    recurs, its delay is 60 times 1000 milliseconds, and it is
    unreferenced, so the timers that keep the process alive are those
    there were before the call. Each time the event loop runs it, one
    [process.memoryUsage] event is emitted on the [Lws] instance, and
    the timer stays. The payload is what [process.memoryUsage()]
    returned with [rss], [heapTotal], [heapUsed] and [external]
    replaced by the string that [byteSize] renders them to. *)
Theorem memory_usage_every_60_seconds this o w srv w' :
  listen this o w = (Ok srv, w') →
  timers w' = timers w ++ [mkTimer this (60 * 1000) true false]
  ∧ holding w' = holding w
  ∧ (∀ mems,
       timers (run ((λ m, Deliver (OnTimer (length (timers w)) m)) <$> mems) w') = timers w'
       ∧ newLog w' (run ((λ m, Deliver (OnTimer (length (timers w)) m)) <$> mems) w')
         = (λ m, mkEmission this "process.memoryUsage" (PObject (memoryUsage m))) <$> mems)
  ∧ (∀ (m : gmap string Js.value) (k : string),
       memoryUsage m !! k
       = if bool_decide (k ∈ ["rss"; "heapTotal"; "heapUsed"; "external"])
         then Some (VStr (byteSize (get m k)))
         else m !! k).
Proof.
  intros Hlisten.
  assert (timers w' = timers w ++ [mkTimer this (60 * 1000) true false]) as Htimers.
  { destruct (listen_effect this o w _ w' Hlisten) as [_ [(_ & _ & e & [=])|Hnew]].
    destruct Hnew as (cfg & n & srv' & _ & _ & _ & _ & _ & Hargs).
    by destruct Hargs as [(_ & _ & e & [=])|(_ & -> & _)]. }
  split; [done|]. split; [|split].
  - unfold holding. rewrite Htimers, filter_app.
    rewrite filter_cons_False by done. by rewrite filter_nil, app_nil_r.
  - intros mems.
    destruct (run_timer this (60 * 1000) false (length (timers w)) mems w') as [Hsame Hlog].
    { rewrite Htimers. by apply list_lookup_middle. }
    split; [done|]. by apply newLog_app.
  - apply memoryUsage_lookup.
Qed.

End MemoryTimer.

Lemma memory_usage_every_60_seconds_witness :
  let w' := (listen (env := Sample.collaborators) (LwsRef 0) Sample.none initialWorld).2 in
  timers w' = timers initialWorld ++ [mkTimer (LwsRef 0) (60 * 1000) true false]
  ∧ holding w' = holding initialWorld
  ∧ (∀ mems,
       timers (run (env := Sample.collaborators)
                 ((λ m, Deliver (OnTimer (length (timers initialWorld)) m)) <$> mems) w')
       = timers w'
       ∧ newLog w' (run (env := Sample.collaborators)
                      ((λ m, Deliver (OnTimer (length (timers initialWorld)) m)) <$> mems) w')
         = (λ m, mkEmission (LwsRef 0) "process.memoryUsage"
                   (PObject (memoryUsage (env := Sample.collaborators) m))) <$> mems)
  ∧ (∀ (m : gmap string Js.value) (k : string),
       memoryUsage (env := Sample.collaborators) m !! k
       = if bool_decide (k ∈ ["rss"; "heapTotal"; "heapUsed"; "external"])
         then Some (VStr (byteSize (Collaborators := Sample.collaborators) (get m k)))
         else m !! k).
Proof.
  intros w'.
  apply (memory_usage_every_60_seconds (env := Sample.collaborators)
           (LwsRef 0) Sample.none initialWorld 1%nat w').
  vm_compute. reflexivity.
Defined.

(** One tick, with a heap of 1500 bytes. *)
Example memory_usage_tick :
  newLog
    (listen (env := Sample.collaborators) (LwsRef 0) Sample.none initialWorld).2
    (step (env := Sample.collaborators)
       (OnTimer 0 {[ "rss" := VNum 52000; "heapTotal" := VNum 7300;
                     "heapUsed" := VNum 1500; "external" := VNum 800 ]})
       (listen (env := Sample.collaborators) (LwsRef 0) Sample.none initialWorld).2)
  = [mkEmission (LwsRef 0) "process.memoryUsage"
       (PObject {[ "rss" := VStr "52.0 kB"; "heapTotal" := VStr "7.3 kB";
                   "heapUsed" := VStr "1.5 kB"; "external" := VStr "800 B" ]})].
Proof. vm_compute. reflexivity. Qed.

(** ** Stack assembly *)

Section StackAssembly.
Context {env : Collaborators}.

Lemma createServer_calls this o w r w' :
  createServer this o w = (r, w') →
  ∃ cs, calls w' = calls w ++ cs ∧ Forall factoryCall cs.
Proof.
  unfold createServer.
  destruct (_ || _); [returned; exists []; by rewrite app_nil_r|].
  destruct (_ && _); [returned; exists []; by rewrite app_nil_r|].
  run_monad. destruct (chooseFactory o w) as [[F|e] w1] eqn:Hsel;
    destruct (chooseFactory_spec o w _ w1 Hsel) as [Hw1 _].
  - unfold propagate. run_monad.
    destruct (create F o) as [b|e]; simpl; returned; simpl;
      destruct Hw1 as [->| ->]; simpl; rewrite <- ?app_assoc; simpl;
      eexists; (split; [done|]); by repeat constructor.
  - returned. destruct Hw1 as [->| ->]; simpl.
    + exists []. by rewrite app_nil_r.
    + eexists. split; [done|]. by repeat constructor.
Qed.

(** C8. A stack option that is a middleware stack already is what the
    assembly returns, the same object, and nothing else happens: no
    call of [Stack.from], no new object. Assembling again what an
    assembly returned gives it back unchanged. In [listen], when the
    merged options hold a middleware stack, [Stack.from] is not
    called, and the stack whose middleware functions are asked for is
    that very stack. *)
Theorem validated_stack_passes_through :
  (∀ o w s, stack o = StackInstance s → assembleStack o w = (Ok s, w))
  ∧ (∀ o w s w',
       assembleStack o w = (Ok s, w') →
       assembleStack (setStack (StackInstance s) o) w' = (Ok s, w'))
  ∧ (∀ this o w cfg s,
       getStoredConfig (configFile o) = Ok cfg →
       stack (deepMerge defaults cfg o) = StackInstance s →
       (∀ specs, CallStackFrom specs ∉ newCalls w (listen this o w).2)
       ∧ (∀ s', CallGetMiddlewareFunctions s' ∈ newCalls w (listen this o w).2 → s' = s)).
Proof.
  assert (∀ o w s, stack o = StackInstance s → assembleStack o w = (Ok s, w)) as Hpass.
  { intros o w s Hs. unfold assembleStack. simpl. by rewrite Hs. }
  split; [done|]. split.
  - intros o w s w' _. by apply Hpass.
  - intros this o w cfg s Hcfg Hs.
    unfold listen. run_monad. rewrite Hcfg.
    destruct (createServer this _ w) as [[n|e] w1] eqn:Hcreate;
      destruct (createServer_calls this _ w _ w1 Hcreate) as (cs & Hcalls & Hcs).
    + unfold createServerEventStream, propagate. run_monad.
      assert (∀ rest, (∀ c, c ∈ rest → match c with
                                        | CallStackFrom _ => False
                                        | CallGetMiddlewareFunctions s' => s' = s
                                        | _ => True
                                        end) →
               ∀ w2, calls w2 = calls w1 ++ rest →
               (∀ specs, CallStackFrom specs ∉ newCalls w w2)
               ∧ (∀ s', CallGetMiddlewareFunctions s' ∈ newCalls w w2 → s' = s)) as Hrest.
      { intros rest Hok w2 Hw2. rewrite Hcalls, <- app_assoc in Hw2.
        rewrite (newCalls_app _ _ _ Hw2). split.
        - intros specs [Hin|Hin]%elem_of_app.
          + by apply (proj1 (Forall_forall _ _) Hcs) in Hin.
          + by apply Hok in Hin.
        - intros s' [Hin|Hin]%elem_of_app.
          + by apply (proj1 (Forall_forall _ _) Hcs) in Hin.
          + by apply Hok in Hin. }
      destruct (isDefined (maxConnections _)), (isDefined (keepAliveTimeout _)); simpl;
        rewrite (Hpass _ _ s Hs); simpl;
        destruct (getMiddlewareFunctions _ _) as [mws|e]; simpl;
        (eapply Hrest; [|simpl; rewrite <- ?app_assoc; simpl; reflexivity]);
        intros c; rewrite !elem_of_cons, elem_of_nil; intuition (by subst).
    + simpl. rewrite (newCalls_app _ _ _ Hcalls).
      split; [intros specs | intros s']; intros Hin;
        by apply (proj1 (Forall_forall _ _) Hcs) in Hin.
Qed.

End StackAssembly.

Lemma validated_stack_passes_through_witness :
  let s := mkStack 7 ["lws-static"; "lws-cors"] in
  let o := setStack (StackInstance s) Sample.none in
  (∀ specs, CallStackFrom specs
            ∉ newCalls initialWorld
                (listen (env := Sample.collaborators) (LwsRef 0) o initialWorld).2)
  ∧ (∀ s', CallGetMiddlewareFunctions s'
           ∈ newCalls initialWorld
               (listen (env := Sample.collaborators) (LwsRef 0) o initialWorld).2 →
           s' = s).
Proof.
  intros s o.
  apply (proj2 (proj2 (validated_stack_passes_through (env := Sample.collaborators)))
           (LwsRef 0) o initialWorld Sample.none s).
  - reflexivity.
  - vm_compute. reflexivity.
Defined.

(** The calls of a [listen] that was handed a stack. *)
Example listen_with_a_stack :
  let s := mkStack 7 ["lws-static"; "lws-cors"] in
  newCalls initialWorld
    (listen (env := Sample.collaborators) (LwsRef 0)
       (setStack (StackInstance s) Sample.none) initialWorld).2
  = [CallNewFactory Base; CallCreate Base; CallGetMiddlewareFunctions s;
     CallListen 1 (VNum 8000) VUndefined; CallSetInterval 60000; CallUnref].
Proof. vm_compute. reflexivity. Qed.

(** * Further properties of [createServer] *)

Section FactoryChoice.
Context {env : Collaborators}.

(** What [createServer] does once the validation has passed and the
    factory class is chosen: a factory object, propagated into [this],
    then [create]; a server object only if [create] returns. *)
Lemma createServer_after_choice this o w F w1 :
  truthy (key o) = truthy (cert o) →
  truthy (https o) && truthy (pfx o) = false →
  chooseFactory o w = (Ok F, w1) →
  createServer this o w
  = match create F o with
    | Ok b =>
        (Ok (S (nextRef w1)),
         mkWorld (S (S (nextRef w1)))
           (Emitter.propagate this (FactoryRef (nextRef w1)) (verbose w1))
           (<[S (nextRef w1) := mkServer F b VUndefined VUndefined [] [] [] [] None]>
              (servers w1))
           (timers w1) (calls w1 ++ [CallNewFactory F; CallCreate F]) (log w1))
    | Throw e =>
        (Throw e,
         mkWorld (S (nextRef w1))
           (Emitter.propagate this (FactoryRef (nextRef w1)) (verbose w1))
           (servers w1) (timers w1)
           (calls w1 ++ [CallNewFactory F; CallCreate F]) (log w1))
    end.
Proof.
  intros Hkc Hhp Hsel. unfold createServer. rewrite Hkc, Hhp.
  replace (truthy (cert o) && negb (truthy (cert o))
           || negb (truthy (cert o)) && truthy (cert o)) with false
    by (by destruct (truthy (cert o))).
  run_monad. rewrite Hsel. unfold propagate. run_monad.
  destruct (create F o) as [b|e]; simpl; unfold called, withServers, withVerbose; simpl;
    by rewrite <- app_assoc.
Qed.

Lemma newCalls_after_choice this o w F :
  truthy (key o) = truthy (cert o) →
  truthy (https o) && truthy (pfx o) = false →
  chooseFactory o w = (Ok F, w) →
  newCalls w (createServer this o w).2 = [CallNewFactory F; CallCreate F].
Proof.
  intros Hkc Hhp Hsel. rewrite (createServer_after_choice this o w F w Hkc Hhp Hsel).
  apply newCalls_app. by destruct (create F o).
Qed.

(** X1. With [http2] set and [https] not, the HTTP2 factory is the one
    instantiated and asked for the server, whatever [key], [cert],
    [pfx] and [server] are: [key] and [cert] do not make an HTTPS
    server then, and [load-module] is not called. *)
Theorem http2_factory_is_selected this o w :
  truthy (key o) = truthy (cert o) →
  truthy (https o) = false →
  truthy (http2 o) = true →
  newCalls w (createServer this o w).2
  = [CallNewFactory (Http2 Base); CallCreate (Http2 Base)].
Proof.
  intros Hkc Hh H2. apply newCalls_after_choice; [done|by rewrite Hh|].
  unfold chooseFactory. by rewrite Hh, H2.
Qed.

(** X2. With none of [https], [http2], [key], [cert], [pfx] and
    [server] set, the base factory is instantiated, undecorated, and
    asked for the server. *)
Theorem base_factory_is_the_default this o w :
  truthy (https o) = false → truthy (http2 o) = false →
  truthy (key o) = false → truthy (cert o) = false →
  truthy (pfx o) = false → truthy (server o) = false →
  newCalls w (createServer this o w).2 = [CallNewFactory Base; CallCreate Base].
Proof.
  intros Hh H2 Hk Hc Hp Hs.
  apply newCalls_after_choice; [by rewrite Hk, Hc|by rewrite Hh|].
  unfold chooseFactory. by rewrite Hh, H2, Hk, Hp, Hs.
Qed.




(** X6. When the chosen factory's [create] throws, [createServer]
    throws the same error: the factory object exists and is propagated
    into [this], but the servers of the process are those there were. *)
Theorem create_failure_leaves_no_server this o w F w1 e :
  truthy (key o) = truthy (cert o) →
  truthy (https o) && truthy (pfx o) = false →
  chooseFactory o w = (Ok F, w1) →
  create F o = Throw e →
  (createServer this o w).1 = Throw e
  ∧ servers (createServer this o w).2 = servers w
  ∧ Forward this ∈ listenersOf (verbose (createServer this o w).2) (FactoryRef (nextRef w)).
Proof.
  intros Hkc Hhp Hsel Hcreate.
  rewrite (createServer_after_choice this o w F w1 Hkc Hhp Hsel), Hcreate. simpl.
  destruct (chooseFactory_spec o w _ w1 Hsel) as [[->| ->] _]; simpl;
    (split; [done|]); (split; [done|]);
    rewrite listenersOf_propagate_eq; apply elem_of_app; right; by left.
Qed.

(** X7. Which of the two configuration errors is thrown: a lone [key]
    or [cert] is reported first, also when [https] and [pfx] are both
    set; the [https] with [pfx] error needs [key] and [cert] to
    agree. *)
Theorem key_cert_error_comes_first this o w :
  (xorb (truthy (key o)) (truthy (cert o)) = true →
   createServer this o w
   = (Throw (VError "--key and --cert must always be supplied together."), w))
  ∧ (truthy (key o) = truthy (cert o) →
     truthy (https o) = true → truthy (pfx o) = true →
     createServer this o w
     = (Throw (VError "please use one of --https or --pfx, not both."), w)).
Proof.
  unfold createServer. split.
  - by destruct (truthy (key o)), (truthy (cert o)).
  - intros -> -> ->. by destruct (truthy (cert o)).
Qed.

End FactoryChoice.

Lemma http2_factory_is_selected_witness :
  let o := Sample.withHttp2 (VBool true)
             (Sample.withKey (VStr "server.key") (Sample.withCert (VStr "server.crt") Sample.none)) in
  newCalls initialWorld (createServer (env := Sample.collaborators) (LwsRef 0) o initialWorld).2
  = [CallNewFactory (Http2 Base); CallCreate (Http2 Base)].
Proof.
  intros o.
  apply (http2_factory_is_selected (env := Sample.collaborators) (LwsRef 0) o initialWorld);
    reflexivity.
Defined.

Lemma base_factory_is_the_default_witness :
  newCalls initialWorld
    (createServer (env := Sample.collaborators) (LwsRef 0) Sample.none initialWorld).2
  = [CallNewFactory Base; CallCreate Base].
Proof.
  apply (base_factory_is_the_default (env := Sample.collaborators)
           (LwsRef 0) Sample.none initialWorld); reflexivity.
Defined.




Lemma create_failure_leaves_no_server_witness :
  let o := Sample.withHttps (VBool true) Sample.none in
  (createServer (env := Sample.brokenTls) (LwsRef 0) o initialWorld).1
  = Throw (VError "ENOENT: no such file or directory")
  ∧ servers (createServer (env := Sample.brokenTls) (LwsRef 0) o initialWorld).2
    = servers initialWorld
  ∧ Forward (LwsRef 0)
    ∈ listenersOf (verbose (createServer (env := Sample.brokenTls) (LwsRef 0) o initialWorld).2)
        (FactoryRef (nextRef initialWorld)).
Proof.
  intros o.
  apply (create_failure_leaves_no_server (env := Sample.brokenTls) (LwsRef 0) o
           initialWorld (Https Base) initialWorld
           (VError "ENOENT: no such file or directory")); reflexivity.
Defined.

Lemma key_cert_error_comes_first_witness :
  let o := Sample.withKey (VStr "server.key")
             (Sample.withHttps (VBool true) (Sample.withPfx (VStr "server.pfx") Sample.none)) in
  createServer (env := Sample.collaborators) (LwsRef 0) o initialWorld
  = (Throw (VError "--key and --cert must always be supplied together."), initialWorld)
  ∧ createServer (env := Sample.collaborators) (LwsRef 0)
      (Sample.withHttps (VBool true) (Sample.withPfx (VStr "server.pfx") Sample.none))
      initialWorld
    = (Throw (VError "please use one of --https or --pfx, not both."), initialWorld).
Proof.
  intros o. split.
  - apply (proj1 (key_cert_error_comes_first (env := Sample.collaborators)
                    (LwsRef 0) o initialWorld)). reflexivity.
  - apply (proj2 (key_cert_error_comes_first (env := Sample.collaborators) (LwsRef 0)
                    (Sample.withHttps (VBool true)
                       (Sample.withPfx (VStr "server.pfx") Sample.none)) initialWorld));
      reflexivity.
Defined.

(** * Further properties of [listen] *)

Section ListenRun.
Context {env : Collaborators}.

Lemma createServer_success this o w n w1 :
  createServer this o w = (Ok n, w1) →
  ∃ F b cs,
    n = S (nextRef w) ∧ nextRef w1 = S (S (nextRef w))
    ∧ servers w1 = <[n := mkServer F b VUndefined VUndefined [] [] [] [] None]> (servers w)
    ∧ verbose w1 = Emitter.propagate this (FactoryRef (nextRef w)) (verbose w)
    ∧ timers w1 = timers w ∧ log w1 = log w
    ∧ calls w1 = calls w ++ cs ∧ Forall factoryCall cs.
Proof.
  unfold createServer.
  destruct (truthy (key o) && negb (truthy (cert o))
            || negb (truthy (key o)) && truthy (cert o)); [simpl; intros [=]|].
  destruct (truthy (https o) && truthy (pfx o)); [simpl; intros [=]|].
  run_monad. destruct (chooseFactory o w) as [[F|e] w0] eqn:Hsel; [|simpl; intros [=]].
  destruct (chooseFactory_spec o w _ w0 Hsel) as [Hw0 _].
  unfold propagate. run_monad.
  destruct (create F o) as [b|e]; simpl; [|simpl; intros [=]].
  returned. exists F, b.
  destruct Hw0 as [->| ->]; simpl; rewrite <- ?app_assoc; simpl;
    eexists; repeat (split; [done|]); by repeat constructor.
Qed.

Lemma assembleStack_success o w s w' :
  assembleStack o w = (Ok s, w') →
  verbose w' = verbose w ∧ servers w' = servers w
  ∧ timers w' = timers w ∧ log w' = log w
  ∧ (calls w' = calls w ∨ ∃ specs, calls w' = calls w ++ [CallStackFrom specs]).
Proof.
  unfold assembleStack. simpl.
  destruct (arrayify (stack o)); run_monad;
    try (destruct (stackFrom _ _); simpl); returned; simpl; eauto 10.
Qed.

(** A call of [listen] that returns, step by step. *)
Lemma listen_success this o w n w' :
  listen this o w = (Ok n, w') →
  ∃ cfg F b s mws cs,
    getStoredConfig (configFile o) = Ok cfg
    ∧ getMiddlewareFunctions s (setStack (StackInstance s) (deepMerge defaults cfg o)) = Ok mws
    ∧ n = S (nextRef w)
    ∧ servers w'
      = <[n := mkServer F b (maxConnections (deepMerge defaults cfg o))
                 (keepAliveTimeout (deepMerge defaults cfg o))
                 [mkStream 1 1 (deepMerge defaults cfg o)] [] [] [(this, mws)]
                 (Some (port (deepMerge defaults cfg o),
                        hostname (deepMerge defaults cfg o)))]> (servers w)
    ∧ verbose w'
      = Emitter.propagate this (StackRef (stackId s))
          (Emitter.propagate this (ServerRef n)
             (Emitter.propagate this (FactoryRef (nextRef w)) (verbose w)))
    ∧ calls w'
      = calls w ++ cs
          ++ [CallGetMiddlewareFunctions s;
              CallListen n (port (deepMerge defaults cfg o))
                (hostname (deepMerge defaults cfg o));
              CallSetInterval 60000; CallUnref]
    ∧ Forall (λ c, factoryCall c ∨ ∃ specs, c = CallStackFrom specs) cs.
Proof.
  unfold listen. run_monad.
  destruct (getStoredConfig (configFile o)) as [cfg|e]; [|simpl; intros [=]].
  set (o1 := deepMerge defaults cfg o).
  destruct (createServer this o1 w) as [[m|e] w1] eqn:Hcreate; [|simpl; intros [=]].
  destruct (createServer_success this o1 w m w1 Hcreate)
    as (F & b & cs & -> & _ & Hservers1 & Hverbose1 & _ & _ & Hcalls1 & Hcs).
  unfold createServerEventStream, propagate. run_monad.
  assert (∀ v, (if isDefined v then v else VUndefined) = v) as Hdef by (by intros []).
  destruct (isDefined (maxConnections o1)) eqn:Hmax,
           (isDefined (keepAliveTimeout o1)) eqn:Hkeep; simpl.
  all: destruct (assembleStack o1 _) as [[s|e] w2] eqn:Hasm; [|simpl; intros [=]].
  all: destruct (assembleStack_success _ _ _ _ Hasm)
         as (Hverbose2 & Hservers2 & _ & _ & Hcalls2);
       simpl in Hverbose2, Hservers2, Hcalls2;
       rewrite Hservers1, ?alter_insert_eq in Hservers2;
       destruct (getMiddlewareFunctions _ _) as [mws|e] eqn:Hmws; [|simpl; intros [=]].
  all: returned; simpl; exists cfg, F, b, s, mws.
  all: destruct Hcalls2 as [Hcalls2|[specs Hcalls2]]; rewrite Hcalls2, Hcalls1;
       [exists cs | exists (cs ++ [CallStackFrom specs])].
  all: rewrite Hservers2, Hverbose2, Hverbose1, ?alter_insert_eq, <- ?app_assoc.
  all: pose proof (Hdef (maxConnections o1)) as Hm; rewrite Hmax in Hm.
  all: pose proof (Hdef (keepAliveTimeout o1)) as Hk; rewrite Hkeep in Hk.
  all: subst o1;
       unfold withListen, withApp, withStreams, withMaxConnections, withKeepAliveTimeout;
       simpl; rewrite <- ?Hm, <- ?Hk.
  all: repeat (split; [done|]).
  all: try (eapply Forall_impl; [exact Hcs|]; by left).
  all: apply Forall_app; split; [eapply Forall_impl; [exact Hcs|]; by left|].
  all: constructor; [right; by exists specs|done].
Qed.

End ListenRun.

(** * Further properties of [propagate] *)

Section PropagateMore.
Implicit Types (st : gmap Emitter.ref (list listener)).
Implicit Types (k : string) (v : payload) (log : list Emission).

(** What the listeners of one [emit] add to the log. *)
Lemma emit_unfold fuel st e k v :
  emit (S fuel) st e k v
  = rest ← foldr
      (λ l acc,
         match l with
         | Forward this =>
             here ← emit fuel st this k v; later ← acc; Some (here ++ later)
         end)
      (Some []) (listenersOf st e);
    Some (mkEmission e k v :: rest).
Proof. reflexivity. Qed.

Lemma emit_head fuel st e k v log :
  emit fuel st e k v = Some log → ∃ rest, log = mkEmission e k v :: rest.
Proof.
  destruct fuel as [|fuel]; [done|]. rewrite emit_unfold.
  destruct (foldr _ _ _) as [rest|]; [|done]. simpl. intros [= <-]. by exists rest.
Qed.

(** A listener that does not return keeps the whole [emit] from
    returning. *)
Lemma notify_None fuel st this k v ls :
  Forward this ∈ ls →
  emit fuel st this k v = None →
  foldr
    (λ l acc,
       match l with
       | Forward this =>
           here ← emit fuel st this k v; later ← acc; Some (here ++ later)
       end)
    (Some []) ls = None.
Proof.
  intros Hin Hnone. induction ls as [|[that] ls IH]; [by apply elem_of_nil in Hin|].
  simpl. apply elem_of_cons in Hin as [[= <-]|Hin].
  - by rewrite Hnone.
  - rewrite (IH Hin). by destruct (emit fuel st that k v).
Qed.

(** Every listener that forwards to [this] shows once, at least, in
    what is seen on [this]. *)
Lemma notify_count fuel st this k v ls rest :
  foldr
    (λ l acc,
       match l with
       | Forward this =>
           here ← emit fuel st this k v; later ← acc; Some (here ++ later)
       end)
    (Some []) ls = Some rest →
  length (filter (λ l, l = Forward this) ls) ≤ length (observedAt this rest).
Proof.
  revert rest. induction ls as [|[that] ls IH]; intros rest; simpl.
  - intros _. lia.
  - destruct (emit fuel st that k v) as [here|] eqn:Hhere; [|done]. simpl.
    destruct (foldr _ _ ls) as [later|]; [|done]. simpl. intros [= <-].
    rewrite observedAt_app, length_app. specialize (IH later eq_refl).
    rewrite filter_cons. destruct (decide (Forward that = Forward this)) as [[= ->]|Hne].
    + destruct (emit_head _ _ _ _ _ _ Hhere) as [more ->].
      unfold observedAt at 1. rewrite filter_cons_True by done. simpl. lia.
    + lia.
Qed.

(** X8. [propagate] is not idempotent: every call adds a listener. If
    [this.propagate(from)] was called [n] times, each event of [from]
    is seen on [this] at least [n] times; on two fresh emitters, two
    calls make every event arrive exactly twice. *)
Theorem propagate_twice_duplicates :
  (∀ st this from fuel k v log,
     emit fuel st from k v = Some log →
     length (filter (λ l, l = Forward this) (listenersOf st from))
     ≤ length (observedAt this log))
  ∧ (∀ this from k v,
       this ≠ from →
       emit 2 (Emitter.propagate this from (Emitter.propagate this from ∅)) from k v
       = Some [mkEmission from k v; mkEmission this k v; mkEmission this k v]).
Proof.
  split.
  - intros st this from fuel k v log. destruct fuel as [|fuel]; [done|].
    rewrite emit_unfold.
    destruct (foldr _ _ _) as [rest|] eqn:Hrest; [|done]. simpl. intros [= <-].
    pose proof (notify_count fuel st this k v _ rest Hrest) as Hcount.
    unfold observedAt in *. rewrite filter_cons. case_decide; simpl; lia.
  - intros this from k v Hne. rewrite emit_unfold.
    rewrite !listenersOf_propagate_eq. unfold listenersOf at 1. rewrite lookup_empty.
    simpl. rewrite !listenersOf_propagate_ne by done.
    unfold listenersOf. by rewrite lookup_empty.
Qed.

(** X9. Propagation in a circle never returns: if [a] forwards to [b]
    and [b] forwards to [a], in particular if an emitter was
    propagated into itself, [emit] on [a] gives no result, whatever
    the fuel. *)
Theorem propagate_in_a_circle_never_returns st a b fuel k v :
  Forward b ∈ listenersOf st a →
  Forward a ∈ listenersOf st b →
  emit fuel st a k v = None.
Proof.
  intros Hab Hba.
  assert (emit fuel st a k v = None ∧ emit fuel st b k v = None) as [Ha _]; [|done].
  induction fuel as [|fuel [IHa IHb]]; [done|].
  rewrite !emit_unfold.
  rewrite (notify_None fuel st b k v _ Hab IHb).
  by rewrite (notify_None fuel st a k v _ Hba IHa).
Qed.

End PropagateMore.

Lemma propagate_twice_duplicates_witness :
  length (filter (λ l, l = Forward (LwsRef 0))
            (listenersOf
               (Emitter.propagate (LwsRef 0) (ServerRef 1)
                  (Emitter.propagate (LwsRef 0) (ServerRef 1) ∅)) (ServerRef 1)))
  ≤ length (observedAt (LwsRef 0)
              [mkEmission (ServerRef 1) "server.close" PUndefined;
               mkEmission (LwsRef 0) "server.close" PUndefined;
               mkEmission (LwsRef 0) "server.close" PUndefined])
  ∧ emit 2 (Emitter.propagate (LwsRef 0) (ServerRef 1)
              (Emitter.propagate (LwsRef 0) (ServerRef 1) ∅))
      (ServerRef 1) "server.close" PUndefined
    = Some [mkEmission (ServerRef 1) "server.close" PUndefined;
            mkEmission (LwsRef 0) "server.close" PUndefined;
            mkEmission (LwsRef 0) "server.close" PUndefined].
Proof.
  split.
  - apply (proj1 propagate_twice_duplicates _ (LwsRef 0) (ServerRef 1) 2%nat
             "server.close" PUndefined).
    vm_compute. reflexivity.
  - apply (proj2 propagate_twice_duplicates (LwsRef 0) (ServerRef 1)). discriminate.
Defined.

Lemma propagate_in_a_circle_never_returns_witness :
  emit 100 (Emitter.propagate (LwsRef 0) (LwsRef 0) ∅) (LwsRef 0) "koa.error" PUndefined
  = None.
Proof.
  apply (propagate_in_a_circle_never_returns
           (Emitter.propagate (LwsRef 0) (LwsRef 0) ∅) (LwsRef 0) (LwsRef 0)).
  - compute_done.
  - compute_done.
Defined.

Section ListenMore.
Context {env : Collaborators}.


(** X11. The order of a call of [listen] that returns: first the
    factory is chosen and makes the server, and the stack is resolved
    if need be; then the middleware functions are asked for; then
    [server.listen] is called, once; the interval is set and
    unreferenced last. *)
Theorem listen_calls_in_order this o w n w' :
  listen this o w = (Ok n, w') →
  ∃ cfg s cs,
    getStoredConfig (configFile o) = Ok cfg
    ∧ newCalls w w'
      = cs ++ [CallGetMiddlewareFunctions s;
               CallListen n (port (deepMerge defaults cfg o))
                 (hostname (deepMerge defaults cfg o));
               CallSetInterval 60000; CallUnref]
    ∧ Forall (λ c, factoryCall c ∨ ∃ specs, c = CallStackFrom specs) cs.
Proof.
  intros Hlisten.
  destruct (listen_success this o w n w' Hlisten)
    as (cfg & F & b & s & mws & cs & Hcfg & _ & _ & _ & _ & Hcalls & Hcs).
  exists cfg, s, cs. split; [done|]. split; [|done].
  by apply newCalls_app.
Qed.


Lemma emit_reaches fuel st this e k v log :
  Forward this ∈ listenersOf st e →
  emit fuel st e k v = Some log →
  mkEmission this k v ∈ log.
Proof.
  intros Hin. destruct fuel as [|fuel]; [done|]. rewrite emit_unfold.
  destruct (foldr _ _ _) as [rest|] eqn:Hrest; [|done]. simpl. intros [= <-].
  apply elem_of_cons. right.
  revert rest Hrest. induction (listenersOf st e) as [|[that] ls IH]; intros rest;
    [by apply elem_of_nil in Hin|].
  simpl. destruct (emit fuel st that k v) as [here|] eqn:Hhere; [|done]. simpl.
  destruct (foldr _ _ ls) as [later|]; [|done]. simpl. intros [= <-].
  apply elem_of_app. apply elem_of_cons in Hin as [[= <-]|Hin].
  - left. destruct (emit_head _ _ _ _ _ _ Hhere) as [more ->]. by left.
  - right. by apply IH.
Qed.

Lemma listenersOf_propagate_mono st this from that e :
  Forward that ∈ listenersOf st e →
  Forward that ∈ listenersOf (Emitter.propagate this from st) e.
Proof.
  intros Hin. destruct (decide (e = from)) as [->|Hne].
  - rewrite listenersOf_propagate_eq. apply elem_of_app. by left.
  - by rewrite listenersOf_propagate_ne.
Qed.

(** X13. After a call of [listen] that returns, whatever the factory,
    the server or the middleware stack emits on its verbose stream is
    emitted on the [Lws] instance too, with the same key and
    payload. *)
Theorem listen_wires_the_sources_to_lws this o w n w' :
  listen this o w = (Ok n, w') →
  ∃ s,
    CallGetMiddlewareFunctions s ∈ newCalls w w'
    ∧ ∀ e, e ∈ [FactoryRef (nextRef w); ServerRef n; StackRef (stackId s)] →
        ∀ fuel k v log,
          emit fuel (verbose w') e k v = Some log → mkEmission this k v ∈ log.
Proof.
  intros Hlisten.
  destruct (listen_success this o w n w' Hlisten)
    as (cfg & F & b & s & mws & cs & _ & _ & _ & _ & Hverbose & Hcalls & _).
  exists s. split.
  - rewrite (newCalls_app _ _ _ Hcalls). apply elem_of_app. right. by left.
  - intros e He fuel k v log. apply emit_reaches. rewrite Hverbose.
    assert (∀ st from, Forward this ∈ listenersOf (Emitter.propagate this from st) from)
      as Hhere.
    { intros st from. rewrite listenersOf_propagate_eq. apply elem_of_app. right. by left. }
    apply elem_of_cons in He as [->|He];
      [by do 2 apply listenersOf_propagate_mono|].
    apply elem_of_cons in He as [->|He];
      [by apply listenersOf_propagate_mono|].
    apply elem_of_cons in He as [->|He]; [done|]. by apply elem_of_nil in He.
Qed.

End ListenMore.

Section Allocation.
Context {env : Collaborators}.

Lemma createServer_alloc this o w r w1 :
  createServer this o w = (r, w1) →
  nextRef w ≤ nextRef w1
  ∧ match r with
    | Throw _ => servers w1 = servers w
    | Ok n => n = S (nextRef w) ∧ nextRef w1 = S (S (nextRef w))
              ∧ ∃ srv, servers w1 = <[n := srv]> (servers w)
    end.
Proof.
  destruct r as [n|e]; intros Hcreate.
  - destruct (createServer_success this o w n w1 Hcreate)
      as (F & b & cs & -> & Hnext & Hservers & _).
    split; [lia|]. split; [done|]. split; [done|]. by eexists.
  - destruct (createServer_effect this o w _ w1 Hcreate) as (_ & _ & Hservers).
    split; [|done]. revert Hcreate. unfold createServer.
    destruct (truthy (key o) && negb (truthy (cert o))
              || negb (truthy (key o)) && truthy (cert o)); [by returned|].
    destruct (truthy (https o) && truthy (pfx o)); [by returned|].
    run_monad. destruct (chooseFactory o w) as [[F|e'] w0] eqn:Hsel;
      destruct (chooseFactory_spec o w _ w0 Hsel) as [Hw0 _]; simpl.
    + unfold propagate. run_monad. destruct (create F o); simpl; returned.
      destruct Hw0 as [->| ->]; simpl; lia.
    + returned. by destruct Hw0 as [->| ->].
Qed.

Lemma assembleStack_alloc o w r w' :
  assembleStack o w = (r, w') → nextRef w ≤ nextRef w' ∧ servers w' = servers w.
Proof.
  unfold assembleStack. simpl.
  destruct (arrayify (stack o)); run_monad;
    try (destruct (stackFrom _ _); simpl); returned; simpl; split; (lia || done).
Qed.

(** A call of [listen] writes to one address of the servers at most,
    the second free one, and uses up the addresses it takes. *)
Lemma listen_alloc this o w r w' :
  listen this o w = (r, w') →
  nextRef w ≤ nextRef w'
  ∧ (servers w' = servers w
     ∨ ∃ srv, servers w' = <[S (nextRef w) := srv]> (servers w)
              ∧ S (nextRef w) < nextRef w').
Proof.
  unfold listen. run_monad.
  destruct (getStoredConfig (configFile o)) as [cfg|e]; [|returned; split; [lia|by left]].
  set (o1 := deepMerge defaults cfg o).
  destruct (createServer this o1 w) as [[n|e] w1] eqn:Hcreate;
    destruct (createServer_alloc this o1 w _ w1 Hcreate) as [Hle Hres];
    [|returned; split; [lia|by left]].
  destruct Hres as (-> & Hnext & srv & Hservers1).
  unfold createServerEventStream, propagate. run_monad.
  destruct (isDefined (maxConnections o1)), (isDefined (keepAliveTimeout o1)); simpl.
  all: destruct (assembleStack o1 _) as [[s|e] w2] eqn:Hasm;
    destruct (assembleStack_alloc _ _ _ _ Hasm) as [Hle2 Hservers2];
    simpl in Hle2, Hservers2;
    rewrite Hservers1, ?alter_insert_eq in Hservers2;
    [destruct (getMiddlewareFunctions _ _) as [mws|e]|];
    returned; simpl; rewrite Hservers2, ?alter_insert_eq;
    (split; [lia|]); right; eexists; (split; [done|]); lia.
Qed.

Lemma listen_allocated this o w : allocated w → allocated (listen this o w).2.
Proof.
  intros Halloc. destruct (listen this o w) as [r w'] eqn:Hlisten. simpl.
  destruct (listen_alloc this o w r w' Hlisten) as [Hle [Hsame|(srv & Hservers & Hlt)]];
    intros m Hm.
  - rewrite Hsame in Hm. specialize (Halloc m Hm). lia.
  - rewrite Hservers in Hm. destruct (decide (S (nextRef w) = m)) as [<-|Hne]; [done|].
    rewrite lookup_insert_ne in Hm by done. specialize (Halloc m Hm). lia.
Qed.

Lemma step_allocated ev w : allocated w → allocated (step ev w).
Proof.
  intros Halloc. destruct ev as [n e|i mem|n i err]; simpl.
  - destruct (servers w !! n) as [srv|] eqn:Hsrv; [|done].
    destruct (serverStep e srv) as [srv' writes]. intros m. simpl.
    destruct (decide (n = m)) as [<-|Hne].
    + intros _. apply Halloc. by rewrite Hsrv.
    + rewrite lookup_insert_ne by done. apply Halloc.
  - destruct (timers w !! i) as [t|]; [|done]. by destruct (repeat t).
  - by destruct (servers w !! n ≫= _) as [[this mws]|].
Qed.

Lemma run_allocated l : ∀ w, allocated w → allocated (run l w).
Proof.
  induction l as [|a l IH]; intros w Halloc; [done|].
  simpl. apply IH. destruct a; [by apply listen_allocated | by apply step_allocated].
Qed.

(** X14. A call of [listen] leaves the servers that the process has
    already as they are, with their sockets, requests and counters,
    whether it returns or throws. *)
Theorem listen_leaves_other_servers_alone actions this o m srv :
  servers (run actions initialWorld) !! m = Some srv →
  servers (listen this o (run actions initialWorld)).2 !! m = Some srv.
Proof.
  intros Hm. set (w := run actions initialWorld) in *.
  assert (allocated w) as Halloc.
  { apply run_allocated. intros n [? Hn]. simpl in Hn. by rewrite lookup_empty in Hn. }
  destruct (listen this o w) as [r w'] eqn:Hlisten. simpl.
  destruct (listen_alloc this o w r w' Hlisten) as [_ [->|(new & -> & _)]]; [done|].
  rewrite lookup_insert_ne; [done|].
  intros <-. assert (S (nextRef w) < nextRef w) as Hlt by (apply Halloc; by rewrite Hm).
  lia.
Qed.

End Allocation.


Lemma listen_calls_in_order_witness :
  ∃ cfg s cs,
    getStoredConfig (Collaborators := Sample.collaborators) (configFile Sample.none) = Ok cfg
    ∧ newCalls initialWorld
        (listen (env := Sample.collaborators) (LwsRef 0) Sample.none initialWorld).2
      = cs ++ [CallGetMiddlewareFunctions s;
               CallListen 1
                 (port (deepMerge (Collaborators := Sample.collaborators)
                          defaults cfg Sample.none))
                 (hostname (deepMerge (Collaborators := Sample.collaborators)
                              defaults cfg Sample.none));
               CallSetInterval 60000; CallUnref]
    ∧ Forall (λ c, factoryCall c ∨ ∃ specs, c = CallStackFrom specs) cs.
Proof.
  apply (listen_calls_in_order (env := Sample.collaborators)
           (LwsRef 0) Sample.none initialWorld 1%nat).
  vm_compute. reflexivity.
Defined.


Lemma listen_wires_the_sources_to_lws_witness :
  ∃ s,
    CallGetMiddlewareFunctions s
    ∈ newCalls initialWorld
        (listen (env := Sample.collaborators) (LwsRef 0) Sample.none initialWorld).2
    ∧ ∀ e, e ∈ [FactoryRef (nextRef initialWorld); ServerRef 1; StackRef (stackId s)] →
        ∀ fuel k v log,
          emit fuel
            (verbose (listen (env := Sample.collaborators) (LwsRef 0) Sample.none
                        initialWorld).2) e k v = Some log →
          mkEmission (LwsRef 0) k v ∈ log.
Proof.
  apply (listen_wires_the_sources_to_lws (env := Sample.collaborators)
           (LwsRef 0) Sample.none initialWorld 1%nat).
  vm_compute. reflexivity.
Defined.

Lemma listen_leaves_other_servers_alone_witness :
  ∃ srv,
    servers (run (env := Sample.collaborators)
               [Listen 0 Sample.none; Deliver (OnServer 1 (Connection 0 0))] initialWorld)
      !! 1%nat = Some srv
    ∧ servers (listen (env := Sample.collaborators) (LwsRef 0) Sample.none
                 (run (env := Sample.collaborators)
                    [Listen 0 Sample.none; Deliver (OnServer 1 (Connection 0 0))]
                    initialWorld)).2 !! 1%nat = Some srv.
Proof.
  eexists. split; [vm_compute; reflexivity|].
  apply (listen_leaves_other_servers_alone (env := Sample.collaborators)
           [Listen 0 Sample.none; Deliver (OnServer 1 (Connection 0 0))]
           (LwsRef 0) Sample.none 1%nat).
  vm_compute. reflexivity.
Defined.

(** * Further properties of the event stream *)

Section StreamMore.
Context {env : Collaborators}.

(** X15. On every socket of every server of a run, [data], [drain],
    [timeout] and [close] each emit one event on the server: its
    payload has the socket's id, one more than the number of sockets
    that arrived before it, and the two byte counters as they are when
    the event fires, rendered by [byteSize]. Nothing of the server
    changes. *)
Theorem live_socket_events_read_the_counters actions n srv i socket ev err :
  servers (run actions initialWorld) !! n = Some srv →
  sockets srv !! i = Some socket →
  ev ∈ [data; drain; timeout; close] →
  newLog (run actions initialWorld)
    (step (OnServer n (SocketEmit i ev err)) (run actions initialWorld))
  = [mkEmission (ServerRef n) (socketKey ev)
       (PObject {[ "socketId" := VNum (1 + Z.of_nat i);
                   "bytesRead" := VStr (byteSize (VNum (Socket.bytesRead socket)));
                   "bytesWritten" := VStr (byteSize (VNum (Socket.bytesWritten socket))) ]})]
  ∧ servers (step (OnServer n (SocketEmit i ev err)) (run actions initialWorld))
    = servers (run actions initialWorld).
Proof.
  intros Hsrv Hsocket Hev. set (w := run actions initialWorld) in *.
  destruct (run_inv actions initialWorld initialWorld_inv n srv Hsrv)
    as (st & _ & _ & _ & Hsockets & _).
  destruct (Hsockets i socket Hsocket) as [Hid (r0 & w0 & Hls)].
  destruct (step_socketEmit w n srv i socket _ ev err Hsrv Hsocket Hls) as [Hlog Hservers].
  split; [|done]. apply newLog_app. rewrite Hlog.
  unfold socketProperties. rewrite Hid.
  rewrite !elem_of_cons, elem_of_nil in Hev.
  by destruct Hev as [->|[->|[->|[->|[]]]]].
Qed.

(** X16. A connection on a server of a run emits one
    [server.socket.new] event: its socket id is one more than the
    number of sockets the server has seen, and the counters are those
    the socket arrives with. The server has one socket more. *)
Theorem connection_emits_socket_new actions n srv r w0 :
  servers (run actions initialWorld) !! n = Some srv →
  newLog (run actions initialWorld)
    (step (OnServer n (Connection r w0)) (run actions initialWorld))
  = [mkEmission (ServerRef n) "server.socket.new"
       (PObject {[ "socketId" := VNum (1 + Z.of_nat (length (sockets srv)));
                   "bytesRead" := VStr (byteSize (VNum r));
                   "bytesWritten" := VStr (byteSize (VNum w0)) ]})]
  ∧ ∃ srv',
      servers (step (OnServer n (Connection r w0)) (run actions initialWorld)) !! n
      = Some srv'
      ∧ length (sockets srv') = S (length (sockets srv)).
Proof.
  intros Hsrv. set (w := run actions initialWorld) in *.
  destruct (run_inv actions initialWorld initialWorld_inv n srv Hsrv)
    as (st & Hst & HcId & _).
  unfold step. rewrite Hsrv, (serverStep_connection srv st r w0 Hst). simpl. split.
  - apply newLog_app. simpl. unfold socketProperties. simpl. by rewrite HcId.
  - eexists. rewrite lookup_insert_eq. split; [done|]. simpl.
    rewrite length_app. simpl. lia.
Qed.

(** X17. An [error] on a socket of a server of a run is reported as
    one [server.socket.error] event whose payload holds the error, and
    changes nothing else: the servers and the timers are as before. *)
Theorem socket_error_is_reported_only actions n srv i socket err :
  servers (run actions initialWorld) !! n = Some srv →
  sockets srv !! i = Some socket →
  newLog (run actions initialWorld)
    (step (OnServer n (SocketEmit i error err)) (run actions initialWorld))
  = [mkEmission (ServerRef n) "server.socket.error" (PObject {[ "err" := err ]})]
  ∧ servers (step (OnServer n (SocketEmit i error err)) (run actions initialWorld))
    = servers (run actions initialWorld)
  ∧ timers (step (OnServer n (SocketEmit i error err)) (run actions initialWorld))
    = timers (run actions initialWorld).
Proof.
  intros Hsrv Hsocket. set (w := run actions initialWorld) in *.
  destruct (run_inv actions initialWorld initialWorld_inv n srv Hsrv)
    as (st & _ & _ & _ & Hsockets & _).
  destruct (Hsockets i socket Hsocket) as [_ (r0 & w0 & Hls)].
  destruct (step_socketEmit w n srv i socket _ error err Hsrv Hsocket Hls)
    as [Hlog Hservers].
  split; [by apply newLog_app|]. split; [done|].
  simpl. rewrite Hsrv. simpl. by rewrite Hsocket.
Qed.

(** X18. A request on a server of a run emits no verbose event. It
    gets the next request id, one more than the number of requests the
    server has seen; the sockets are as before. *)
Theorem request_is_numbered_silently actions n srv :
  servers (run actions initialWorld) !! n = Some srv →
  newLog (run actions initialWorld)
    (step (OnServer n Request) (run actions initialWorld)) = []
  ∧ ∃ srv',
      servers (step (OnServer n Request) (run actions initialWorld)) !! n = Some srv'
      ∧ requests srv' = requests srv ++ [VNum (1 + Z.of_nat (length (requests srv)))]
      ∧ sockets srv' = sockets srv.
Proof.
  intros Hsrv. set (w := run actions initialWorld) in *.
  destruct (run_inv actions initialWorld initialWorld_inv n srv Hsrv)
    as (st & Hst & _ & Hreq & _).
  unfold step. rewrite Hsrv, (serverStep_request srv st Hst). simpl. split.
  - apply newLog_app. simpl. by rewrite app_nil_r.
  - eexists. rewrite lookup_insert_eq. split; [done|]. simpl. by rewrite Hreq.
Qed.

(** X19. When a server of a run closes, one [server.close] event is
    emitted on it, without payload; its sockets, requests and counters
    stay, so ids given after a close go on from where they were. *)
Theorem close_emits_server_close actions n srv :
  servers (run actions initialWorld) !! n = Some srv →
  newLog (run actions initialWorld)
    (step (OnServer n Closed) (run actions initialWorld))
  = [mkEmission (ServerRef n) "server.close" PUndefined]
  ∧ servers (step (OnServer n Closed) (run actions initialWorld))
    = servers (run actions initialWorld).
Proof.
  intros Hsrv. set (w := run actions initialWorld) in *.
  destruct (run_inv actions initialWorld initialWorld_inv n srv Hsrv) as (st & Hst & _).
  simpl. rewrite Hsrv. simpl. rewrite Hst. simpl. split.
  - by apply newLog_app.
  - by apply insert_id.
Qed.

Lemma step_apps ev w n :
  (apps <$> servers (step ev w) !! n) = (apps <$> servers w !! n).
Proof.
  destruct ev as [m e|i mem|m i err]; simpl.
  - destruct (servers w !! m) as [srv|] eqn:Hsrv; [|done].
    assert (apps (serverStep e srv).1 = apps srv) as Happs.
    { destruct e; simpl; try done.
      - by destruct (foldl _ _ _) as [[? ?] ?].
      - by destruct (sockets srv !! _).
      - by destruct (foldl _ _ _) as [? ?].
      - by destruct (listenArgs srv). }
    destruct (serverStep e srv) as [srv' writes]. simpl in *.
    destruct (decide (m = n)) as [->|Hne].
    + rewrite lookup_insert_eq, Hsrv. simpl. by rewrite Happs.
    + by rewrite lookup_insert_ne.
  - destruct (timers w !! i) as [t|]; [|done]. by destruct (repeat t).
  - by destruct (servers w !! m ≫= _) as [[this mws]|].
Qed.

Lemma run_deliver_apps evs : ∀ w n,
  (apps <$> servers (run (Deliver <$> evs) w) !! n) = (apps <$> servers w !! n).
Proof.
  induction evs as [|ev evs IH]; intros w n; [done|].
  cbn [fmap list_fmap run act].
  change (list_fmap _ _ Deliver evs) with (Deliver <$> evs).
  by rewrite IH, step_apps.
Qed.

(** X20. After a call of [listen] that returns, and whatever events
    follow, an error of the server's Koa application is emitted as one
    [koa.error] event, on the [Lws] instance itself, with the error as
    payload. *)
Theorem koa_error_is_emitted_on_lws this o w n w' evs err :
  listen this o w = (Ok n, w') →
  newLog (run (Deliver <$> evs) w')
    (step (OnAppError n 0 err) (run (Deliver <$> evs) w'))
  = [mkEmission this "koa.error" (PValue err)].
Proof.
  intros Hlisten.
  destruct (listen_success this o w n w' Hlisten)
    as (cfg & F & b & s & mws & cs & _ & _ & _ & Hservers & _).
  pose proof (run_deliver_apps evs w' n) as Happs.
  rewrite Hservers, lookup_insert_eq in Happs. simpl in Happs.
  apply newLog_app. simpl.
  destruct (servers (run (Deliver <$> evs) w') !! n) as [srv|]; [|done].
  simpl in *. injection Happs as ->. done.
Qed.

End StreamMore.

Lemma live_socket_events_read_the_counters_witness :
  let acts := [Listen 0 Sample.none;
               Deliver (OnServer 1 (Connection 0 0));
               Deliver (OnServer 1 (Transfer 0 1500 300))] in
  ∃ srv socket,
    servers (run (env := Sample.collaborators) acts initialWorld) !! 1%nat = Some srv
    ∧ sockets srv !! 0%nat = Some socket
    ∧ newLog (run (env := Sample.collaborators) acts initialWorld)
        (step (env := Sample.collaborators) (OnServer 1 (SocketEmit 0 data VUndefined))
           (run (env := Sample.collaborators) acts initialWorld))
      = [mkEmission (ServerRef 1) (socketKey data)
           (PObject {[ "socketId" := VNum (1 + Z.of_nat 0);
                       "bytesRead" :=
                         VStr (byteSize (Collaborators := Sample.collaborators)
                                 (VNum (Socket.bytesRead socket)));
                       "bytesWritten" :=
                         VStr (byteSize (Collaborators := Sample.collaborators)
                                 (VNum (Socket.bytesWritten socket))) ]})]
    ∧ servers (step (env := Sample.collaborators) (OnServer 1 (SocketEmit 0 data VUndefined))
                 (run (env := Sample.collaborators) acts initialWorld))
      = servers (run (env := Sample.collaborators) acts initialWorld).
Proof.
  intros acts. eexists _, _.
  split; [vm_compute; reflexivity|]. split; [vm_compute; reflexivity|].
  eapply (live_socket_events_read_the_counters (env := Sample.collaborators)
           acts 1%nat _ 0%nat _ data VUndefined).
  - vm_compute. reflexivity.
  - vm_compute. reflexivity.
  - compute_done.
Defined.

(** The same run, as the listener of the stream sees it. *)
Example data_after_transfer :
  newLog
    (run (env := Sample.collaborators)
       [Listen 0 Sample.none; Deliver (OnServer 1 (Connection 0 0));
        Deliver (OnServer 1 (Transfer 0 1500 300))] initialWorld)
    (step (env := Sample.collaborators) (OnServer 1 (SocketEmit 0 data VUndefined))
       (run (env := Sample.collaborators)
          [Listen 0 Sample.none; Deliver (OnServer 1 (Connection 0 0));
           Deliver (OnServer 1 (Transfer 0 1500 300))] initialWorld))
  = [mkEmission (ServerRef 1) "server.socket.data"
       (PObject {[ "socketId" := VNum 1; "bytesRead" := VStr "1.5 kB";
                   "bytesWritten" := VStr "300 B" ]})].
Proof. vm_compute. reflexivity. Qed.

Lemma connection_emits_socket_new_witness :
  let acts := [Listen 0 Sample.none; Deliver (OnServer 1 (Connection 0 0))] in
  ∃ srv,
    servers (run (env := Sample.collaborators) acts initialWorld) !! 1%nat = Some srv
    ∧ newLog (run (env := Sample.collaborators) acts initialWorld)
        (step (env := Sample.collaborators) (OnServer 1 (Connection 120 0))
           (run (env := Sample.collaborators) acts initialWorld))
      = [mkEmission (ServerRef 1) "server.socket.new"
           (PObject {[ "socketId" := VNum (1 + Z.of_nat (length (sockets srv)));
                       "bytesRead" :=
                         VStr (byteSize (Collaborators := Sample.collaborators) (VNum 120));
                       "bytesWritten" :=
                         VStr (byteSize (Collaborators := Sample.collaborators) (VNum 0)) ]})]
    ∧ ∃ srv',
        servers (step (env := Sample.collaborators) (OnServer 1 (Connection 120 0))
                   (run (env := Sample.collaborators) acts initialWorld)) !! 1%nat
        = Some srv'
        ∧ length (sockets srv') = S (length (sockets srv)).
Proof.
  intros acts. eexists. split; [vm_compute; reflexivity|].
  eapply (connection_emits_socket_new (env := Sample.collaborators) acts 1%nat _ 120 0).
  vm_compute. reflexivity.
Defined.

Lemma socket_error_is_reported_only_witness :
  let acts := [Listen 0 Sample.none; Deliver (OnServer 1 (Connection 0 0))] in
  newLog (run (env := Sample.collaborators) acts initialWorld)
    (step (env := Sample.collaborators)
       (OnServer 1 (SocketEmit 0 error (VError "ECONNRESET")))
       (run (env := Sample.collaborators) acts initialWorld))
  = [mkEmission (ServerRef 1) "server.socket.error"
       (PObject {[ "err" := VError "ECONNRESET" ]})]
  ∧ servers (step (env := Sample.collaborators)
               (OnServer 1 (SocketEmit 0 error (VError "ECONNRESET")))
               (run (env := Sample.collaborators) acts initialWorld))
    = servers (run (env := Sample.collaborators) acts initialWorld)
  ∧ timers (step (env := Sample.collaborators)
              (OnServer 1 (SocketEmit 0 error (VError "ECONNRESET")))
              (run (env := Sample.collaborators) acts initialWorld))
    = timers (run (env := Sample.collaborators) acts initialWorld).
Proof.
  intros acts.
  eapply (socket_error_is_reported_only (env := Sample.collaborators)
            acts 1%nat _ 0%nat _ (VError "ECONNRESET")).
  - vm_compute. reflexivity.
  - vm_compute. reflexivity.
Defined.

Lemma request_is_numbered_silently_witness :
  let acts := [Listen 0 Sample.none; Deliver (OnServer 1 Request)] in
  ∃ srv,
    servers (run (env := Sample.collaborators) acts initialWorld) !! 1%nat = Some srv
    ∧ newLog (run (env := Sample.collaborators) acts initialWorld)
        (step (env := Sample.collaborators) (OnServer 1 Request)
           (run (env := Sample.collaborators) acts initialWorld)) = []
    ∧ ∃ srv',
        servers (step (env := Sample.collaborators) (OnServer 1 Request)
                   (run (env := Sample.collaborators) acts initialWorld)) !! 1%nat
        = Some srv'
        ∧ requests srv' = requests srv ++ [VNum (1 + Z.of_nat (length (requests srv)))]
        ∧ sockets srv' = sockets srv.
Proof.
  intros acts. eexists. split; [vm_compute; reflexivity|].
  apply (request_is_numbered_silently (env := Sample.collaborators) acts 1%nat).
  vm_compute. reflexivity.
Defined.

Lemma close_emits_server_close_witness :
  let acts := [Listen 0 Sample.none; Deliver (OnServer 1 (Connection 0 0))] in
  newLog (run (env := Sample.collaborators) acts initialWorld)
    (step (env := Sample.collaborators) (OnServer 1 Closed)
       (run (env := Sample.collaborators) acts initialWorld))
  = [mkEmission (ServerRef 1) "server.close" PUndefined]
  ∧ servers (step (env := Sample.collaborators) (OnServer 1 Closed)
               (run (env := Sample.collaborators) acts initialWorld))
    = servers (run (env := Sample.collaborators) acts initialWorld).
Proof.
  intros acts.
  eapply (close_emits_server_close (env := Sample.collaborators) acts 1%nat).
  vm_compute. reflexivity.
Defined.

Lemma koa_error_is_emitted_on_lws_witness :
  let w' := (listen (env := Sample.collaborators) (LwsRef 0) Sample.none initialWorld).2 in
  let evs := [OnServer 1 (Connection 0 0); OnServer 1 Request] in
  newLog (run (env := Sample.collaborators) (Deliver <$> evs) w')
    (step (env := Sample.collaborators) (OnAppError 1 0 (VError "boom"))
       (run (env := Sample.collaborators) (Deliver <$> evs) w'))
  = [mkEmission (LwsRef 0) "koa.error" (PValue (VError "boom"))].
Proof.
  intros w' evs.
  apply (koa_error_is_emitted_on_lws (env := Sample.collaborators)
           (LwsRef 0) Sample.none initialWorld 1%nat w' evs (VError "boom")).
  vm_compute. reflexivity.
Defined.
